(** * Benchmark kernels and lit configuration of the pyxc tutorial

    A shallow embedding of the Python benchmark kernels
    ([loopsum.py], [fib39.py], [primecount.py], [particles_heavy.py],
    [lcg_hash.py]) and of the lit configuration script [lit.cfg.py],
    together with the properties the specification states about them.

    Python integers are unbounded, hence [Z].  Functions that recurse on
    integers, and [while] loops, take a fuel argument; every statement
    about a result comes with the amount of fuel that yields it.  CPython's
    recursion limit is a setting of the interpreter and is not modelled. *)

From Stdlib Require Import ZArith Lia String Ascii List Znumtheory DecimalString.
From Stdlib Require Import Floats.SpecFloat.
From stdpp Require Import base option list strings.

Local Open Scope Z_scope.

(** ** The fragment of the Python runtime the sources use *)

(** Exceptions the modelled operations can raise. *)
Inductive exn : Type :=
| IndexError
| OverflowError.

(** Outcome of a computation: a value, an uncaught exception, or no answer
    within the given fuel. *)
Inductive result (A : Type) : Type :=
| Ok (a : A)
| Raise (e : exn)
| OutOfFuel.

Arguments Ok {A} a.
Arguments Raise {A} e.
Arguments OutOfFuel {A}.

#[global] Instance result_ret : MRet result := fun A a => Ok a.

#[global] Instance result_bind : MBind result := fun A B f m =>
  match m with
  | Ok a => f a
  | Raise e => Raise e
  | OutOfFuel => OutOfFuel
  end.

(** [range(a, b)]: the integers from [a] up to, not including, [b]. *)
Definition py_range (a b : Z) : list Z := seqZ a (b - a).

(** [for x in l: s = body(s, x)] with a body that may fail. *)
Fixpoint for_in {S : Type} (l : list Z) (body : S -> Z -> result S) (s : S)
  : result S :=
  match l with
  | [] => Ok s
  | x :: l' => s' ← body s x; for_in l' body s'
  end.

(** [while cond(s): s = body(s)], at most [fuel] tests of the condition. *)
Fixpoint while_loop {S : Type} (fuel : nat) (cond : S -> bool)
  (body : S -> result S) (s : S) : result S :=
  match fuel with
  | O => OutOfFuel
  | S fuel' =>
      if cond s then s' ← body s; while_loop fuel' cond body s' else Ok s
  end.

(** Index normalisation of [l[i]]: a negative index counts from the end,
    an index outside the list raises [IndexError]. *)
Definition py_index {A : Type} (l : list A) (i : Z) : result nat :=
  let len := Z.of_nat (length l) in
  let j := if i <? 0 then i + len else i in
  if (0 <=? j) && (j <? len) then Ok (Z.to_nat j) else Raise IndexError.

(** [l[i]] *)
Definition getitem {A : Type} (l : list A) (i : Z) : result A :=
  j ← py_index l i;
  match l !! j with
  | Some a => Ok a
  | None => Raise IndexError
  end.

(** [l[i] = v] *)
Definition setitem {A : Type} (l : list A) (i : Z) (v : A) : result (list A) :=
  j ← py_index l i; Ok (<[j := v]> l).

(** [str(z)] for an integer. *)
Definition str_int (z : Z) : string := NilZero.string_of_int (Z.to_int z).

(** [float(z)] for an integer: the nearest binary64 value, ties to even;
    [OverflowError] when that is out of range. *)
Definition py_float (z : Z) : result spec_float :=
  match binary_normalize 53 1024 z 0 false with
  | S754_infinity _ => Raise OverflowError
  | f => Ok f
  end.

(** [q] rounded to the nearest integer, ties to even, for [q = num / den]
    with [den > 0]. *)
Definition div_half_even (num den : Z) : Z :=
  let q := num / den in
  let r := num mod den in
  match 2 * r ?= den with
  | Lt => q
  | Gt => q + 1
  | Eq => if Z.even q then q else q + 1
  end.

(** Decimal digits of [z >= 0], padded with zeros on the left to [width]. *)
Definition zero_pad (width : nat) (z : Z) : string :=
  let s := str_int z in
  String.concat "" (repeat "0"%string (width - String.length s)) +:+ s.

(** [format(f, ".{prec}f")]: sign, integer part, point and [prec] digits of
    the value rounded to [prec] decimals (ties to even on the exact value). *)
Definition format_f (prec : nat) (f : spec_float) : string :=
  match f with
  | S754_nan => "nan"
  | S754_infinity s => if s then "-inf" else "inf"
  | S754_zero s =>
      (if s then "-" else "") +:+ "0" +:+
      (if Nat.eqb prec 0 then "" else "." +:+ zero_pad prec 0)
  | S754_finite s m e =>
      let scale := 10 ^ Z.of_nat prec in
      let q :=
        if 0 <=? e then Zpos m * 2 ^ e * scale
        else div_half_even (Zpos m * scale) (2 ^ (- e)) in
      (if s then "-" else "") +:+ str_int (q / scale) +:+
      (if Nat.eqb prec 0 then "" else "." +:+ zero_pad prec (q mod scale))
  end.

(** ** Programs and their runs *)

(** What a program can ask of its surroundings. *)
Inductive query : Type :=
| QInput
| QEnviron (name : string)
| QReadFile (path : string)
| QRandom.

(** A program: it ends with a result, prints a line, or asks its
    surroundings and goes on with the answer. *)
Inductive io (A : Type) : Type :=
| Done (r : result A)
| Print (line : string) (k : io A)
| Ask (q : query) (k : string -> io A).

Arguments Done {A} r.
Arguments Print {A} line k.
Arguments Ask {A} q k.

Fixpoint io_bind {A B : Type} (f : A -> io B) (m : io A) : io B :=
  match m with
  | Done (Ok a) => f a
  | Done (Raise e) => Done (Raise e)
  | Done OutOfFuel => Done OutOfFuel
  | Print line k => Print line (io_bind f k)
  | Ask q k => Ask q (fun a => io_bind f (k a))
  end.

#[global] Instance io_ret : MRet io := fun A a => Done (Ok a).
#[global] Instance io_mbind : MBind io := fun A B f m => io_bind f m.

(** A pure computation inside a program. *)
Definition lift {A : Type} (r : result A) : io A := Done r.

(** [print(s)] *)
Definition print (s : string) : io unit := Print s (Done (Ok tt)).

(** What an observer of a run sees. *)
Inductive event : Type :=
| EvPrint (line : string)
| EvAsk (q : query) (answer : string).

(** [runs p t r]: [p] can run with trace [t] and end with [r]; the
    surroundings may answer a query with any string. *)
Inductive runs {A : Type} : io A -> list event -> result A -> Prop :=
| runs_done r : runs (Done r) [] r
| runs_print line k t r :
    runs k t r -> runs (Print line k) (EvPrint line :: t) r
| runs_ask q k answer t r :
    runs (k answer) t r -> runs (Ask q k) (EvAsk q answer :: t) r.

(** The bytes a run writes to standard output: [print] ends each line
    with a newline. *)
Fixpoint stdout (t : list event) : string :=
  match t with
  | [] => ""
  | EvPrint line :: t' => line +:+ String "010" (stdout t')
  | EvAsk _ _ :: t' => stdout t'
  end.

(** Whether a string contains a newline. *)
Fixpoint has_newline (s : string) : bool :=
  match s with
  | EmptyString => false
  | String c s' => Ascii.eqb c "010" || has_newline s'
  end.

(** ** [loopsum.py] *)
Module Loopsum.

Definition loopsum (n m : Z) : Z :=
  let total := 0 in
  fold_left (fun total i =>
    fold_left (fun total j => total + i * j) (py_range 1 (m + 1)) total)
    (py_range 1 (n + 1)) total.

Definition main : io unit :=
  f ← lift (py_float (loopsum 10000 10000));
  print (format_f 6 f).

End Loopsum.

(** ** [fib39.py] *)
Module Fib39.

Fixpoint fib (fuel : nat) (n : Z) : result Z :=
  match fuel with
  | O => OutOfFuel
  | S fuel' =>
      if n <? 3 then Ok 1
      else a ← fib fuel' (n - 1); b ← fib fuel' (n - 2); Ok (a + b)
  end.

Definition main (fuel : nat) : io unit :=
  v ← lift (fib fuel 41);
  f ← lift (py_float v);
  print (format_f 6 f).

End Fib39.

(** ** [primecount.py] *)
Module Primecount.

Fixpoint divisible (fuel : nat) (n d : Z) : result bool :=
  match fuel with
  | O => OutOfFuel
  | S fuel' =>
      if n <? d then Ok false
      else if n <? d + 1 then Ok true
      else divisible fuel' (n - d) d
  end.

Fixpoint is_prime_from (fuel : nat) (n d : Z) : result bool :=
  match fuel with
  | O => OutOfFuel
  | S fuel' =>
      if d * d >? n then Ok true
      else
        b ← divisible fuel' n d;
        if b : bool then Ok false else is_prime_from fuel' n (d + 1)
  end.

Definition is_prime (fuel : nat) (n : Z) : result bool :=
  if n <? 2 then Ok false else is_prime_from fuel n 2.

Definition count_primes (fuel : nat) (limit : Z) : result Z :=
  let count := 0 in
  for_in (py_range 2 (limit + 1))
    (fun count n =>
       b ← is_prime fuel n;
       if b : bool then Ok (count + 1) else Ok count)
    count.

(** The loop of [main]: [total] after the ten repetitions. *)
Definition repeat_count (fuel : nat) : result Z :=
  let total := 0 in
  for_in (py_range 0 10)
    (fun total _ => c ← count_primes fuel 1900; Ok (total + c))
    total.

Definition main (fuel : nat) : io unit :=
  total ← lift (repeat_count fuel);
  f ← lift (py_float total);
  print (format_f 6 f).

End Primecount.

(** ** [particles_heavy.py] *)
Module ParticlesHeavy.

Definition MODV : Z := 1000000007.
Definition N : Z := 80000.
Definition STEPS : Z := 800.

Record Vec2 : Type := { x : Z; y : Z }.

Record Particle : Type := { id : Z; pos : Vec2; vel : Vec2; bins : list Z }.

Definition Vec2_init (x0 y0 : Z) : Vec2 := {| x := x0; y := y0 |}.

Definition Particle_init (pid : Z) : Particle :=
  {| id := pid;
     pos := Vec2_init pid (pid * 2);
     vel := Vec2_init (1 + pid) (2 - pid);
     bins := [pid + 0; pid + 1; pid + 2; pid + 3] |}.

Definition set_pos_x (p : Particle) (v : Z) : Particle :=
  {| id := id p; pos := {| x := v; y := y (pos p) |}; vel := vel p;
     bins := bins p |}.

Definition set_pos_y (p : Particle) (v : Z) : Particle :=
  {| id := id p; pos := {| x := x (pos p); y := v |}; vel := vel p;
     bins := bins p |}.

Definition set_bins (p : Particle) (b : list Z) : Particle :=
  {| id := id p; pos := pos p; vel := vel p; bins := b |}.

(** Body of the inner simulation loop for particle [i] at step [step].
    [p = ps[i]] is a reference to the object held by the list, so the
    assignments to its fields change the list's element [j] in place. *)
Definition update (step : Z) (ps : list Particle) (i : Z)
  : result (list Particle) :=
  j ← py_index ps i;
  match ps !! j with
  | None => Raise IndexError
  | Some p =>
      let p := set_pos_x p (x (pos p) + x (vel p)) in
      let p := set_pos_y p (y (pos p) + y (vel p)) in
      let slot := step mod 4 in
      b ← getitem (bins p) slot;
      bins' ← setitem (bins p) slot (b + i + step);
      let p := set_bins p bins' in
      Ok (<[j := p]> ps)
  end.

(** The simulation: [while step < STEPS], and inside [while i < N]. *)
Definition simulate (fuel : nat) (ps : list Particle) : result (list Particle) :=
  let step := 0 in
  '(ps, step) ←
    while_loop fuel (fun '(ps, step) => step <? STEPS)
      (fun '(ps, step) =>
         let i := 0 in
         '(ps, i) ←
           while_loop fuel (fun '(ps, i) => i <? N)
             (fun '(ps, i) => ps ← update step ps i; Ok (ps, i + 1))
             (ps, i);
         Ok (ps, step + 1))
      (ps, step);
  Ok ps.

(** The checksum loop. *)
Definition checksum_loop (fuel : nat) (ps : list Particle) : result Z :=
  let checksum := 0 in
  let i := 0 in
  '(checksum, i) ←
    while_loop fuel (fun '(checksum, i) => i <? N)
      (fun '(checksum, i) =>
         p ← getitem ps i;
         b0 ← getitem (bins p) 0;
         b1 ← getitem (bins p) 1;
         b2 ← getitem (bins p) 2;
         b3 ← getitem (bins p) 3;
         let checksum :=
           (checksum + x (pos p) + y (pos p) + b0 + b1 + b2 + b3) mod MODV in
         Ok (checksum, i + 1))
      (checksum, i);
  Ok checksum.

Definition main (fuel : nat) : io unit :=
  let ps := Particle_init <$> py_range 0 N in
  ps ← lift (simulate fuel ps);
  checksum ← lift (checksum_loop fuel ps);
  print (str_int checksum).

End ParticlesHeavy.

(** ** [lcg_hash.py] *)
Module LcgHash.

Definition N : Z := 200000000.
Definition MODV : Z := 2147483647.

(** The loop of [main]: its state is [(x, acc, i)]. *)
Definition hash_loop (fuel : nat) : result (Z * Z * Z) :=
  let x := 1234567 in
  let acc := 0 in
  let i := 0 in
  while_loop fuel (fun '(x, acc, i) => i <? N)
    (fun '(x, acc, i) =>
       let x := (x * 48271) mod MODV in
       let acc := (acc + x + i) mod MODV in
       Ok (x, acc, i + 1))
    (x, acc, i).

Definition main (fuel : nat) : io unit :=
  '(x, acc, i) ← lift (hash_loop fuel);
  print (str_int acc).

End LcgHash.

(** ** The five kernels *)

Inductive kernel : Type :=
| K_loop_sum
| K_fib
| K_prime_count
| K_particles
| K_lcg_hash.

Definition kernel_main (k : kernel) (fuel : nat) : io unit :=
  match k with
  | K_loop_sum => Loopsum.main
  | K_fib => Fib39.main fuel
  | K_prime_count => Primecount.main fuel
  | K_particles => ParticlesHeavy.main fuel
  | K_lcg_hash => LcgHash.main fuel
  end.

(** Fuel that lets each recursive function return. *)
Definition divisible_fuel (n : Z) : nat := S (Z.to_nat n).
Definition is_prime_from_fuel (n d : Z) : nat :=
  S (Z.to_nat n + Z.to_nat (n + 1 - d)).
Definition is_prime_fuel (n : Z) : nat := is_prime_from_fuel n 2.
Definition count_primes_fuel (limit : Z) : nat := is_prime_fuel limit.

(** Fuel that lets each kernel run to its end. *)
Definition fuel_needed (k : kernel) : nat :=
  match k with
  | K_loop_sum => 0
  | K_fib => 41
  | K_prime_count => count_primes_fuel 1900
  | K_particles => S (Z.to_nat ParticlesHeavy.N)
  | K_lcg_hash => S (Z.to_nat LcgHash.N)
  end.

(** ** The sequence the specification names for [fib] *)

(** fib(1) = fib(2) = 1, fib(n) = fib(n-1) + fib(n-2); the sequence starts
    at index 1 and index 0 is not used. *)
Fixpoint fib_seq (n : nat) : Z :=
  match n with
  | 0%nat => 0
  | 1%nat => 1
  | 2%nat => 1
  | S (S (S _ as m) as p) => fib_seq p + fib_seq m
  end.

(** Two consecutive terms at once, for evaluation in linear time. *)
Fixpoint fib_pair (n : nat) : Z * Z :=
  match n with
  | O => (0, 1)
  | S n' => let '(a, b) := fib_pair n' in (b, a + b)
  end.

(** ** [lit.cfg.py] *)
Module LitCfg.

(** The functions of [os.path] the script calls.  [abspath] reads the
    current directory of the process, which an instance fixes. *)
Class OsPath : Type := {
  dirname : string -> string;
  join : string -> list string -> string;
  abspath : string -> string
}.

(** [lit.formats.ShTest(execute_external)] *)
Inductive TestFormat : Type :=
| ShTest (execute_external : bool).

(** The attributes of lit's [config] object the script touches. *)
Record TestingConfig : Type := {
  name : string;
  test_format : TestFormat;
  suffixes : list string;
  test_source_root : string;
  test_exec_root : string;
  substitutions : list (string * string)
}.

Definition set_name (v : string) (c : TestingConfig) : TestingConfig :=
  {| name := v; test_format := test_format c; suffixes := suffixes c;
     test_source_root := test_source_root c;
     test_exec_root := test_exec_root c; substitutions := substitutions c |}.

Definition set_test_format (v : TestFormat) (c : TestingConfig) : TestingConfig :=
  {| name := name c; test_format := v; suffixes := suffixes c;
     test_source_root := test_source_root c;
     test_exec_root := test_exec_root c; substitutions := substitutions c |}.

Definition set_suffixes (v : list string) (c : TestingConfig) : TestingConfig :=
  {| name := name c; test_format := test_format c; suffixes := v;
     test_source_root := test_source_root c;
     test_exec_root := test_exec_root c; substitutions := substitutions c |}.

Definition set_test_source_root (v : string) (c : TestingConfig) : TestingConfig :=
  {| name := name c; test_format := test_format c; suffixes := suffixes c;
     test_source_root := v;
     test_exec_root := test_exec_root c; substitutions := substitutions c |}.

Definition set_test_exec_root (v : string) (c : TestingConfig) : TestingConfig :=
  {| name := name c; test_format := test_format c; suffixes := suffixes c;
     test_source_root := test_source_root c;
     test_exec_root := v; substitutions := substitutions c |}.

(** [config.substitutions.append(kv)] *)
Definition substitutions_append (kv : string * string) (c : TestingConfig)
  : TestingConfig :=
  {| name := name c; test_format := test_format c; suffixes := suffixes c;
     test_source_root := test_source_root c;
     test_exec_root := test_exec_root c;
     substitutions := substitutions c ++ [kv] |}.

(** The script, run by lit with [__file__] set to the script's path and
    [config] to the configuration under construction. *)
Definition lit_cfg `{OsPath} (__file__ : string) (config : TestingConfig)
  : TestingConfig :=
  let config := set_name "pyxc-chapter06" config in
  let config := set_test_format (ShTest true) config in
  let config := set_suffixes [".pyxc"%string] config in
  let config := set_test_source_root (dirname __file__) config in
  let config := set_test_exec_root (test_source_root config) config in
  let chapter_dir := abspath (join (test_source_root config) [".."%string]) in
  substitutions_append
    ("%pyxc"%string, join chapter_dir ["build"%string; "pyxc"%string]) config.

End LitCfg.

(** ** Auxiliary notions of the specification *)

(** Triangular numbers: 1 + 2 + ... + k. *)
Definition tri (k : Z) : Z := k * (k + 1) / 2.

(** Primality is decidable. *)
#[global] Instance prime_decision (n : Z) : Decision (Z.prime n) :=
  match prime_dec n with
  | left H => left (proj2 (prime_alt n) H)
  | right H => right (fun H' => H (proj1 (prime_alt n) H'))
  end.

(** The number of primes in [2, limit]. *)
Definition prime_count_upto (limit : Z) : Z :=
  Z.of_nat (length (filter Z.prime (py_range 2 (limit + 1)))).

(** No number from [d] up to the square root of [n] divides [n]. *)
Definition no_divisor_from (n d : Z) : Prop :=
  forall k : Z, d <= k -> k * k <= n -> ~ (k | n).

(** The shape of the particle list the loops rely on: [N] particles, each
    with four bins. *)
Definition particles_ok (ps : list ParticlesHeavy.Particle) : Prop :=
  length ps = Z.to_nat ParticlesHeavy.N
  /\ Forall (fun p => length (ParticlesHeavy.bins p) = 4%nat) ps.

(** ** [os.path] on a POSIX system *)

(** The behaviour of CPython's [posixpath] for the three functions that
    [lit.cfg.py] calls; it lets the script run on concrete paths. *)
Module Posixpath.

Definition is_slash (c : ascii) : bool := Ascii.eqb c "/".

(** Drops the slashes at the front. *)
Fixpoint drop_slashes (cs : list ascii) : list ascii :=
  match cs with
  | c :: cs' => if is_slash c then drop_slashes cs' else cs
  | [] => []
  end.

(** Drops the characters in front of the first slash. *)
Fixpoint drop_to_slash (cs : list ascii) : list ascii :=
  match cs with
  | c :: cs' => if is_slash c then cs else drop_to_slash cs'
  | [] => []
  end.

(** [dirname(p)]: [p] up to its last slash, without the trailing slashes
    unless it consists of slashes only. *)
Definition dirname (p : string) : string :=
  let head := drop_to_slash (rev (list_ascii_of_string p)) in
  let head := if forallb is_slash head then head else drop_slashes head in
  string_of_list_ascii (rev head).

Definition startswith_slash (s : string) : bool :=
  match s with
  | String c _ => is_slash c
  | EmptyString => false
  end.

Definition endswith_slash (s : string) : bool :=
  match rev (list_ascii_of_string s) with
  | c :: _ => is_slash c
  | [] => false
  end.

(** [join(a, *ps)] *)
Definition join (a : string) (ps : list string) : string :=
  fold_left
    (fun path b =>
       if startswith_slash b then b
       else if String.eqb path "" || endswith_slash path then path +:+ b
       else path +:+ "/" +:+ b)
    ps a.

(** [path.split('/')]; [cur] holds the current component, reversed. *)
Fixpoint split_slash (cs cur : list ascii) : list string :=
  match cs with
  | [] => [string_of_list_ascii (rev cur)]
  | c :: cs' =>
      if is_slash c then string_of_list_ascii (rev cur) :: split_slash cs' []
      else split_slash cs' (c :: cur)
  end.

(** [normpath(path)]; the components kept so far are held last first. *)
Definition normpath (path : string) : string :=
  if String.eqb path "" then "."
  else
    let cs := list_ascii_of_string path in
    let initial_slashes : nat :=
      match cs with
      | c1 :: c2 :: c3 :: _ =>
          if is_slash c1
          then (if is_slash c2 && negb (is_slash c3) then 2 else 1)
          else 0
      | [c1; c2] => if is_slash c1 then (if is_slash c2 then 2 else 1) else 0
      | [c1] => if is_slash c1 then 1 else 0
      | [] => 0
      end%nat in
    let new_comps :=
      fold_left
        (fun new_comps comp =>
           if String.eqb comp "" || String.eqb comp "." then new_comps
           else if negb (String.eqb comp "..")
                   || (Nat.eqb initial_slashes 0
                       && match new_comps with [] => true | _ => false end)
                   || match new_comps with
                      | last :: _ => String.eqb last ".."
                      | [] => false
                      end
           then comp :: new_comps
           else match new_comps with
                | _ :: rest => rest
                | [] => []
                end)
        (split_slash cs []) [] in
    let path :=
      String.concat "" (repeat "/"%string initial_slashes)
      +:+ String.concat "/" (rev new_comps) in
    if String.eqb path "" then "." else path.

(** [abspath(path)] in a process whose current directory is [cwd]. *)
Definition abspath (cwd path : string) : string :=
  let path := if startswith_slash path then path else join cwd [path] in
  normpath path.

End Posixpath.

(** [os.path] of a process on a POSIX system with current directory [cwd]. *)
Definition posix_os_path (cwd : string) : LitCfg.OsPath :=
  {| LitCfg.dirname := Posixpath.dirname;
     LitCfg.join := Posixpath.join;
     LitCfg.abspath := Posixpath.abspath cwd |}.

(** A configuration as lit hands it to the script: nothing registered. *)
Definition fresh_config : LitCfg.TestingConfig :=
  {| LitCfg.name := "";
     LitCfg.test_format := LitCfg.ShTest false;
     LitCfg.suffixes := [];
     LitCfg.test_source_root := "";
     LitCfg.test_exec_root := "";
     LitCfg.substitutions := [] |}.

(** ** Notions used to describe what the kernels compute *)

(** Nested calls of [divisible n d] for a divisor [d >= 1]: the argument
    goes down by [d] until it is at most [d]. *)
Definition divisible_depth (n d : Z) : nat :=
  Z.to_nat (Z.max 1 ((n + d - 1) / d)).

(** Nested calls of [fib n]. *)
Definition fib_depth (n : Z) : nat := Z.to_nat (Z.max 1 (n - 1)).

(** The generator of [lcg_hash.py] after [k] steps, without the loop. *)
Definition lcg_x (k : Z) : Z := (1234567 * 48271 ^ k) mod LcgHash.MODV.

(** The sum the accumulator of [lcg_hash.py] holds after [k] steps, before
    the reduction modulo [MODV]. *)
Fixpoint lcg_sum (k : nat) : Z :=
  match k with
  | O => 0
  | S k' => lcg_sum k' + lcg_x (Z.of_nat (S k')) + Z.of_nat k'
  end.

(** What one pass of the inner loop body of [particles_heavy.py] does to
    particle [i] at step [step]. *)
Definition advance (step i : Z) (p : ParticlesHeavy.Particle)
  : ParticlesHeavy.Particle :=
  let slot := Z.to_nat (step mod 4) in
  {| ParticlesHeavy.id := ParticlesHeavy.id p;
     ParticlesHeavy.pos :=
       {| ParticlesHeavy.x :=
            ParticlesHeavy.x (ParticlesHeavy.pos p)
            + ParticlesHeavy.x (ParticlesHeavy.vel p);
          ParticlesHeavy.y :=
            ParticlesHeavy.y (ParticlesHeavy.pos p)
            + ParticlesHeavy.y (ParticlesHeavy.vel p) |};
     ParticlesHeavy.vel := ParticlesHeavy.vel p;
     ParticlesHeavy.bins :=
       match ParticlesHeavy.bins p !! slot with
       | Some b => <[slot := b + i + step]> (ParticlesHeavy.bins p)
       | None => ParticlesHeavy.bins p
       end |}.

(** Particle [pid] after the steps [0], ..., [k - 1]. *)
Fixpoint particle_after (k : nat) (pid : Z) : ParticlesHeavy.Particle :=
  match k with
  | O => ParticlesHeavy.Particle_init pid
  | S k' => advance (Z.of_nat k') pid (particle_after k' pid)
  end.

(** Particle [pid] after all [STEPS = 800] steps, in closed form. *)
Definition final_particle (pid : Z) : ParticlesHeavy.Particle :=
  {| ParticlesHeavy.id := pid;
     ParticlesHeavy.pos :=
       {| ParticlesHeavy.x := 801 * pid + 800;
          ParticlesHeavy.y := 1600 - 798 * pid |};
     ParticlesHeavy.vel :=
       {| ParticlesHeavy.x := 1 + pid; ParticlesHeavy.y := 2 - pid |};
     ParticlesHeavy.bins :=
       [201 * pid + 79600; 201 * pid + 79801;
        201 * pid + 80002; 201 * pid + 80203] |}.

(** The fields of a particle that enter the checksum, added up. *)
Definition particle_weight (p : ParticlesHeavy.Particle) : Z :=
  ParticlesHeavy.x (ParticlesHeavy.pos p)
  + ParticlesHeavy.y (ParticlesHeavy.pos p)
  + foldr Z.add 0 (ParticlesHeavy.bins p).

Definition total_weight (ps : list ParticlesHeavy.Particle) : Z :=
  foldr (fun p acc => particle_weight p + acc) 0 ps.

(** The value of [fib n] at any integer: 1 below 3, the sequence from 3 on. *)
Definition fib_value (n : Z) : Z :=
  if n <? 3 then 1 else fib_seq (Z.to_nat n).

(** The particle list once the inner loop at [step] has handled the first
    [k] particles of [ps]. *)
Definition advance_upto (step : Z) (k : nat)
  (ps : list ParticlesHeavy.Particle) : list ParticlesHeavy.Particle :=
  imap (fun j p => if (j <? k)%nat then advance step (Z.of_nat j) p else p) ps.

(** Nested calls of [is_prime n] for [n >= 4]: one for [is_prime_from] and
    those of [divisible n 2]. *)
Definition is_prime_depth (n : Z) : nat := Z.to_nat ((n - 1) / 2 + 2).

(** * Properties *)

(** ** Runs of a program that only prints *)

Lemma runs_print_one (s : string) : runs (print s) [EvPrint s] (Ok tt).
Proof. unfold print. apply runs_print, runs_done. Qed.

Lemma runs_print_inv (s : string) (t : list event) (r : result unit) :
  runs (print s) t r -> t = [EvPrint s] /\ r = Ok tt.
Proof.
  unfold print. intros H.
  inversion H as [| line k t' r' Hk |]; subst.
  inversion Hk; subst. split; reflexivity.
Qed.

Lemma stdout_print_one (s : string) :
  stdout [EvPrint s] = s +:+ String "010" "".
Proof. reflexivity. Qed.

(** ** The runtime on concrete inputs *)

Example getitem_negative_index : getitem [1; 2; 3] (-1) = Ok 3.
Proof. reflexivity. Qed.

Example getitem_out_of_range : getitem [1; 2; 3] 3 = Raise IndexError.
Proof. reflexivity. Qed.

Example setitem_out_of_range : setitem [1; 2; 3] (-4) 7 = Raise IndexError.
Proof. reflexivity. Qed.

Example py_float_ties_to_even :
  py_float (2 ^ 53 + 1) = Ok (S754_finite false 4503599627370496 1)
  /\ py_float (2 ^ 53 + 3) = Ok (S754_finite false 4503599627370498 1).
Proof. split; vm_compute; reflexivity. Qed.

Example py_float_overflow : py_float (2 ^ 1024) = Raise OverflowError.
Proof. vm_compute. reflexivity. Qed.

Example format_f_half : format_f 6 (S754_finite false 1 (-1)) = "0.500000"%string.
Proof. vm_compute. reflexivity. Qed.

Example format_f_rounds_half_to_even :
  format_f 2 (S754_finite true 1 (-3)) = "-0.12"%string
  /\ format_f 2 (S754_finite true 3 (-3)) = "-0.38"%string.
Proof. split; vm_compute; reflexivity. Qed.

Example update_second_particle :
  ParticlesHeavy.update 5
    [ParticlesHeavy.Particle_init 0; ParticlesHeavy.Particle_init 1] 1
  = Ok [ParticlesHeavy.Particle_init 0;
        {| ParticlesHeavy.id := 1;
           ParticlesHeavy.pos := {| ParticlesHeavy.x := 3; ParticlesHeavy.y := 3 |};
           ParticlesHeavy.vel := {| ParticlesHeavy.x := 2; ParticlesHeavy.y := 1 |};
           ParticlesHeavy.bins := [1; 8; 3; 4] |}].
Proof. vm_compute. reflexivity. Qed.

(** ** The result monad *)

Lemma bind_Ok {A B : Type} (a : A) (f : A -> result B) : (Ok a ≫= f) = f a.
Proof. reflexivity. Qed.

(** ** [loopsum]: the closed form *)

Lemma fold_left_pointwise {A B : Type} (f g : A -> B -> A) (l : list B) (a : A) :
  (forall a b, f a b = g a b) -> fold_left f l a = fold_left g l a.
Proof.
  intros Hfg. revert a. induction l as [| b l IH]; intros a; cbn [fold_left].
  - reflexivity.
  - rewrite Hfg. apply IH.
Qed.

Lemma tri_succ (k : Z) : tri (k + 1) = tri k + (k + 1).
Proof.
  unfold tri.
  replace ((k + 1) * (k + 1 + 1)) with (k * (k + 1) + (k + 1) * 2) by ring.
  apply Z.div_add. lia.
Qed.

Lemma py_range_succ (a : Z) (k : nat) :
  py_range a (a + Z.of_nat (S k)) = py_range a (a + Z.of_nat k) ++ [a + Z.of_nat k].
Proof.
  unfold py_range.
  replace (a + Z.of_nat (S k) - a) with (Z.of_nat (S k)) by lia.
  replace (a + Z.of_nat k - a) with (Z.of_nat k) by lia.
  apply seqZ_S.
Qed.

Lemma inner_loop_sum (i t0 : Z) (k : nat) :
  fold_left (fun total j => total + i * j) (py_range 1 (1 + Z.of_nat k)) t0
  = t0 + i * tri (Z.of_nat k).
Proof.
  induction k as [| k IH].
  - change (py_range 1 (1 + Z.of_nat 0)) with (@nil Z). cbn [fold_left].
    change (tri (Z.of_nat 0)) with 0. lia.
  - rewrite py_range_succ, fold_left_app, IH. cbn [fold_left].
    replace (Z.of_nat (S k)) with (Z.of_nat k + 1) by lia.
    rewrite tri_succ. lia.
Qed.

Lemma outer_loop_sum (c t0 : Z) (k : nat) :
  fold_left (fun total i => total + i * c) (py_range 1 (1 + Z.of_nat k)) t0
  = t0 + tri (Z.of_nat k) * c.
Proof.
  induction k as [| k IH].
  - change (py_range 1 (1 + Z.of_nat 0)) with (@nil Z). cbn [fold_left].
    change (tri (Z.of_nat 0)) with 0. lia.
  - rewrite py_range_succ, fold_left_app, IH. cbn [fold_left].
    replace (Z.of_nat (S k)) with (Z.of_nat k + 1) by lia.
    rewrite tri_succ. lia.
Qed.

Lemma loopsum_closed_form (n m : Z) :
  0 <= n -> 0 <= m -> Loopsum.loopsum n m = tri n * tri m.
Proof.
  intros Hn Hm. unfold Loopsum.loopsum.
  replace (m + 1) with (1 + Z.of_nat (Z.to_nat m)) by lia.
  replace (n + 1) with (1 + Z.of_nat (Z.to_nat n)) by lia.
  rewrite (fold_left_pointwise _ (fun total i => total + i * tri (Z.of_nat (Z.to_nat m))))
    by (intros total i; apply inner_loop_sum).
  rewrite outer_loop_sum. rewrite !Z2Nat.id by lia. lia.
Qed.

Lemma loopsum_10000 : Loopsum.loopsum 10000 10000 = 2500500025000000.
Proof. rewrite loopsum_closed_form by lia. vm_compute. reflexivity. Qed.

Lemma loopsum_main_eq : Loopsum.main = print "2500500025000000.000000".
Proof. unfold Loopsum.main. rewrite loopsum_10000. vm_compute. reflexivity. Qed.

(** C9: for all n >= 0 and m >= 0, [loopsum n m] is
    (n*(n+1)/2) * (m*(m+1)/2), and [loopsum 10000 10000] is
    2500500025000000. *)
Theorem loopsum_is_product_of_triangular_numbers :
  forall n m : Z, 0 <= n -> 0 <= m ->
    Loopsum.loopsum n m = (n * (n + 1) / 2) * (m * (m + 1) / 2)
    /\ Loopsum.loopsum 10000 10000 = 2500500025000000.
Proof.
  intros n m Hn Hm. split.
  - apply loopsum_closed_form; assumption.
  - apply loopsum_10000.
Qed.

Lemma loopsum_is_product_of_triangular_numbers_witness :
  0 <= 3 /\ 0 <= 4 /\
  (Loopsum.loopsum 3 4 = (3 * (3 + 1) / 2) * (4 * (4 + 1) / 2)
   /\ Loopsum.loopsum 10000 10000 = 2500500025000000).
Proof.
  split; [lia | split; [lia |]].
  apply (loopsum_is_product_of_triangular_numbers 3 4); lia.
Defined.

(** C1 as stated fails: no run of [loopsum.py]'s main writes the line
    100000000.000000. *)
Lemma loopsum_main_does_not_print_100000000 :
  ~ (exists t r, runs Loopsum.main t r
                 /\ stdout t = "100000000.000000" +:+ String "010" "").
Proof.
  intros (t & r & Hrun & Hout).
  rewrite loopsum_main_eq in Hrun.
  apply runs_print_inv in Hrun as [-> _].
  vm_compute in Hout. discriminate Hout.
Qed.

(** C1, amended: main of [loopsum.py] converts loopsum(10000, 10000) to a
    float, formats it with 6 fractional digits and writes exactly the line
    2500500025000000.000000. *)
Theorem loopsum_main_prints_2500500025000000 :
  exists t, runs Loopsum.main t (Ok tt)
            /\ stdout t = "2500500025000000.000000" +:+ String "010" ""
            /\ (f ← py_float (Loopsum.loopsum 10000 10000); Ok (format_f 6 f))
               = Ok "2500500025000000.000000"%string.
Proof.
  exists [EvPrint "2500500025000000.000000"]. split; [| split].
  - rewrite loopsum_main_eq. apply runs_print_one.
  - reflexivity.
  - rewrite loopsum_10000. vm_compute. reflexivity.
Qed.

(** ** [fib]: the recursion computes the sequence *)

Lemma fib_seq_rec (n : nat) :
  fib_seq (S (S (S n))) = fib_seq (S (S n)) + fib_seq (S n).
Proof. reflexivity. Qed.

Lemma fib_seq_rec0 (n : nat) : fib_seq (S (S n)) = fib_seq n + fib_seq (S n).
Proof. destruct n as [| n]; [reflexivity | rewrite fib_seq_rec; lia]. Qed.

Lemma fib_pair_spec (n : nat) : fib_pair n = (fib_seq n, fib_seq (S n)).
Proof.
  induction n as [| n IH]; [reflexivity |].
  cbn [fib_pair]. rewrite IH. rewrite (fib_seq_rec0 n). reflexivity.
Qed.

Lemma fib_seq_fst_pair (n : nat) : fib_seq n = fst (fib_pair n).
Proof. rewrite fib_pair_spec. reflexivity. Qed.

Lemma fib_seq_41 : fib_seq 41 = 165580141.
Proof.
  rewrite fib_seq_fst_pair. vm_compute. reflexivity.
Qed.

Lemma fib_correct (fuel : nat) : forall n : Z,
  1 <= n -> (Z.to_nat n <= fuel)%nat ->
  Fib39.fib fuel n = Ok (fib_seq (Z.to_nat n)).
Proof.
  induction fuel as [| fuel IH]; intros n Hn Hfuel; [lia |].
  cbn [Fib39.fib]. destruct (Z.ltb_spec n 3) as [Hlt | Hge].
  - assert (n = 1 \/ n = 2) as [-> | ->] by lia; reflexivity.
  - rewrite (IH (n - 1)), (IH (n - 2)) by lia.
    replace (Z.to_nat n) with (S (S (S (Z.to_nat (n - 3))))) by lia.
    replace (Z.to_nat (n - 1)) with (S (S (Z.to_nat (n - 3)))) by lia.
    replace (Z.to_nat (n - 2)) with (S (Z.to_nat (n - 3))) by lia.
    rewrite fib_seq_rec. reflexivity.
Qed.

Lemma fib_main_eq (fuel : nat) :
  (41 <= fuel)%nat -> Fib39.main fuel = print "165580141.000000".
Proof.
  intros Hfuel. unfold Fib39.main.
  rewrite fib_correct by lia.
  change (Z.to_nat 41) with 41%nat. rewrite fib_seq_41.
  vm_compute. reflexivity.
Qed.

(** C3: for every n >= 1, [fib n] is the n-th term of the sequence with
    fib(1) = fib(2) = 1 and fib(n) = fib(n-1) + fib(n-2); main of
    [fib39.py] writes the rendering with 6 fractional digits of the 41st
    term, the line 165580141.000000. *)
Theorem fib_is_the_sequence_and_main_prints_fib_41 :
  forall (n : Z) (fuel : nat),
    1 <= n -> (Z.to_nat n <= fuel)%nat -> (41 <= fuel)%nat ->
    Fib39.fib fuel n = Ok (fib_seq (Z.to_nat n))
    /\ exists s : string,
         (f ← py_float (fib_seq 41); Ok (format_f 6 f)) = Ok s
         /\ s = "165580141.000000"%string
         /\ runs (Fib39.main fuel) [EvPrint s] (Ok tt).
Proof.
  intros n fuel Hn Hfuel H41. split.
  - apply fib_correct; assumption.
  - exists "165580141.000000"%string. split; [| split].
    + rewrite fib_seq_41. vm_compute. reflexivity.
    + reflexivity.
    + rewrite fib_main_eq by assumption. apply runs_print_one.
Qed.

Lemma fib_is_the_sequence_and_main_prints_fib_41_witness :
  1 <= 10 /\ (Z.to_nat 10 <= 41)%nat /\ (41 <= 41)%nat /\
  (Fib39.fib 41 10 = Ok (fib_seq (Z.to_nat 10))
   /\ exists s : string,
        (f ← py_float (fib_seq 41); Ok (format_f 6 f)) = Ok s
        /\ s = "165580141.000000"%string
        /\ runs (Fib39.main 41) [EvPrint s] (Ok tt)).
Proof.
  split; [lia | split; [lia | split; [lia |]]].
  apply (fib_is_the_sequence_and_main_prints_fib_41 10 41); lia.
Defined.

(** ** [primecount.py]: trial division decides primality *)

Lemma divisible_spec (fuel : nat) : forall n d : Z,
  1 <= d -> (divisible_fuel n <= fuel)%nat ->
  Primecount.divisible fuel n d = Ok ((0 <? n) && (n mod d =? 0)).
Proof.
  unfold divisible_fuel.
  induction fuel as [| fuel IH]; intros n d Hd Hfuel; [lia |].
  cbn [Primecount.divisible].
  destruct (Z.ltb_spec n d) as [Hnd | Hnd].
  - f_equal. symmetry. apply andb_false_iff.
    destruct (Z.ltb_spec 0 n) as [Hpos | Hneg]; [right | left; reflexivity].
    apply Z.eqb_neq. rewrite Z.mod_small; lia.
  - destruct (Z.ltb_spec n (d + 1)) as [Heq | Hgt].
    + assert (n = d) as -> by lia. f_equal. symmetry. apply andb_true_iff.
      split; [apply Z.ltb_lt; lia | apply Z.eqb_eq, Z_mod_same_full].
    + rewrite IH by lia. f_equal.
      replace (n - d) with (n + (-1) * d) by ring.
      rewrite Z_mod_plus_full. f_equal.
      destruct (Z.ltb_spec 0 (n + -1 * d)), (Z.ltb_spec 0 n); (reflexivity || lia).
Qed.

Lemma is_prime_from_spec (fuel : nat) : forall n d : Z,
  1 <= d -> (is_prime_from_fuel n d <= fuel)%nat ->
  exists b : bool,
    Primecount.is_prime_from fuel n d = Ok b
    /\ (b = true <-> no_divisor_from n d).
Proof.
  unfold is_prime_from_fuel.
  induction fuel as [| fuel IH]; intros n d Hd Hfuel; [lia |].
  cbn [Primecount.is_prime_from].
  destruct (Z.gtb_spec (d * d) n) as [Hsq | Hsq].
  - exists true. split; [reflexivity |]. split; [| reflexivity].
    intros _ k Hk Hkk. nia.
  - assert (d <= n) by nia.
    rewrite divisible_spec by (unfold divisible_fuel; lia).
    replace (0 <? n) with true by (symmetry; apply Z.ltb_lt; lia).
    cbn [andb]. rewrite bind_Ok.
    destruct (Z.eqb_spec (n mod d) 0) as [Hdiv | Hndiv].
    + exists false. split; [reflexivity |]. split; [discriminate |].
      intros Hno. exfalso. apply (Hno d); [lia | lia |].
      apply Z.mod_divide; [lia | assumption].
    + destruct (IH n (d + 1)) as (b & Hb & Hspec); [lia | lia |].
      exists b. split; [exact Hb |]. rewrite Hspec. split.
      * intros Hno k Hk Hkk. destruct (Z.eq_dec k d) as [-> | Hne].
        -- intros Hdvd. apply Hndiv. apply Z.mod_divide; [lia | assumption].
        -- apply Hno; lia.
      * intros Hno k Hk Hkk. apply Hno; lia.
Qed.

Lemma prime_iff_no_small_divisor (n : Z) :
  Z.prime n <-> 2 <= n /\ no_divisor_from n 2.
Proof.
  split.
  - intros [Hge Hp]. split; [lia |].
    intros k Hk Hkk Hdvd. apply (Hp k); [nia | assumption].
  - intros [Hge Hno]. split; [lia |].
    intros k Hk [q Hq].
    destruct (Z_le_gt_dec (k * k) n) as [Hle | Hgt].
    + apply (Hno k); [lia | assumption | exists q; assumption].
    + assert (0 < q) by nia. assert (2 <= q) by nia.
      apply (Hno q); [assumption | nia |].
      exists k. lia.
Qed.

Lemma is_prime_spec (fuel : nat) (n : Z) :
  (is_prime_fuel n <= fuel)%nat ->
  Primecount.is_prime fuel n = Ok (bool_decide (Z.prime n)).
Proof.
  intros Hfuel. unfold Primecount.is_prime.
  destruct (Z.ltb_spec n 2) as [Hlt | Hge].
  - rewrite bool_decide_eq_false_2; [reflexivity |].
    intros Hp. apply Z.prime_ge_2 in Hp. lia.
  - destruct (is_prime_from_spec fuel n 2) as (b & -> & Hspec);
      [lia | exact Hfuel |].
    f_equal. destruct b.
    + symmetry. apply bool_decide_eq_true_2, prime_iff_no_small_divisor.
      split; [assumption | apply Hspec; reflexivity].
    + symmetry. apply bool_decide_eq_false_2.
      intros Hp. apply prime_iff_no_small_divisor in Hp as [_ Hno].
      apply Hspec in Hno. discriminate.
Qed.

Lemma is_prime_fuel_mono (n m : Z) :
  n <= m -> (is_prime_fuel n <= is_prime_fuel m)%nat.
Proof. unfold is_prime_fuel, is_prime_from_fuel. lia. Qed.

Lemma count_loop_spec (fuel : nat) (l : list Z) : forall count : Z,
  Forall (fun n => (is_prime_fuel n <= fuel)%nat) l ->
  for_in l
    (fun count n =>
       b ← Primecount.is_prime fuel n;
       if b : bool then Ok (count + 1) else Ok count)
    count
  = Ok (count + Z.of_nat (length (filter Z.prime l))).
Proof.
  induction l as [| n l IH]; intros count Hall.
  - cbn. f_equal. lia.
  - apply Forall_cons in Hall as [Hn Hl]. cbn [for_in].
    rewrite is_prime_spec by assumption. rewrite bind_Ok.
    rewrite filter_cons. destruct (decide (Z.prime n)) as [Hp | Hnp].
    + rewrite bool_decide_eq_true_2 by assumption. rewrite bind_Ok.
      rewrite IH by assumption. f_equal. cbn [length]. lia.
    + rewrite bool_decide_eq_false_2 by assumption. rewrite bind_Ok.
      apply IH; assumption.
Qed.

Lemma count_primes_spec (fuel : nat) (limit : Z) :
  (count_primes_fuel limit <= fuel)%nat ->
  Primecount.count_primes fuel limit = Ok (prime_count_upto limit).
Proof.
  intros Hfuel. unfold Primecount.count_primes, prime_count_upto.
  rewrite count_loop_spec; [f_equal; lia |].
  unfold py_range. apply Forall_seqZ. intros n Hn.
  etransitivity; [| exact Hfuel].
  unfold count_primes_fuel. apply is_prime_fuel_mono. lia.
Qed.

Lemma prime_count_upto_1900 : prime_count_upto 1900 = 290.
Proof.
  assert (Hrun : Primecount.count_primes (count_primes_fuel 1900) 1900 = Ok 290)
    by (vm_compute; reflexivity).
  rewrite count_primes_spec in Hrun by apply le_n.
  injection Hrun as Hrun. exact Hrun.
Qed.

Lemma repeat_count_spec (fuel : nat) :
  (count_primes_fuel 1900 <= fuel)%nat ->
  Primecount.repeat_count fuel = Ok (10 * prime_count_upto 1900).
Proof.
  intros Hfuel. unfold Primecount.repeat_count.
  change (py_range 0 10) with [0; 1; 2; 3; 4; 5; 6; 7; 8; 9].
  cbn [for_in]. rewrite !count_primes_spec by assumption.
  rewrite !bind_Ok. f_equal. lia.
Qed.

Lemma primecount_main_eq (fuel : nat) :
  (count_primes_fuel 1900 <= fuel)%nat ->
  Primecount.main fuel = print "2900.000000".
Proof.
  intros Hfuel. unfold Primecount.main.
  rewrite repeat_count_spec by assumption.
  rewrite prime_count_upto_1900. vm_compute. reflexivity.
Qed.

(** On the kernel's input the recursion stays shallow: 1000 nested calls
    are enough for every call of [count_primes 1900]. *)
Example count_primes_1900_within_depth_1000 :
  Primecount.count_primes 1000 1900 = Ok 290.
Proof. vm_compute. reflexivity. Qed.

(** C2: main of [primecount.py] writes the rendering with 6 fractional
    digits of 10 times the number of primes up to 1900: [is_prime] returns
    True exactly on the primes, [count_primes 1900] is the number of primes
    in [2, 1900], and the total of the ten repetitions is 10 times that. *)
Theorem primecount_main_prints_ten_times_prime_count :
  forall fuel : nat, (count_primes_fuel 1900 <= fuel)%nat ->
    (forall n : Z, (is_prime_fuel n <= fuel)%nat ->
       exists b : bool,
         Primecount.is_prime fuel n = Ok b /\ (b = true <-> Z.prime n))
    /\ Primecount.count_primes fuel 1900 = Ok (prime_count_upto 1900)
    /\ Primecount.repeat_count fuel = Ok (10 * prime_count_upto 1900)
    /\ exists s : string,
         (f ← py_float (10 * prime_count_upto 1900); Ok (format_f 6 f)) = Ok s
         /\ s = "2900.000000"%string
         /\ runs (Primecount.main fuel) [EvPrint s] (Ok tt).
Proof.
  intros fuel Hfuel. split; [| split; [| split]].
  - intros n Hn. exists (bool_decide (Z.prime n)). split.
    + apply is_prime_spec; assumption.
    + apply bool_decide_eq_true.
  - apply count_primes_spec; assumption.
  - apply repeat_count_spec; assumption.
  - exists "2900.000000"%string. split; [| split].
    + rewrite prime_count_upto_1900. vm_compute. reflexivity.
    + reflexivity.
    + rewrite primecount_main_eq by assumption. apply runs_print_one.
Qed.

Lemma primecount_main_prints_ten_times_prime_count_witness :
  (count_primes_fuel 1900 <= 4000)%nat /\
  ((forall n : Z, (is_prime_fuel n <= 4000)%nat ->
      exists b : bool,
        Primecount.is_prime 4000 n = Ok b /\ (b = true <-> Z.prime n))
   /\ Primecount.count_primes 4000 1900 = Ok (prime_count_upto 1900)
   /\ Primecount.repeat_count 4000 = Ok (10 * prime_count_upto 1900)
   /\ exists s : string,
        (f ← py_float (10 * prime_count_upto 1900); Ok (format_f 6 f)) = Ok s
        /\ s = "2900.000000"%string
        /\ runs (Primecount.main 4000) [EvPrint s] (Ok tt)).
Proof.
  assert (Hfuel : (count_primes_fuel 1900 <= 4000)%nat)
    by (vm_compute; lia).
  split; [exact Hfuel |].
  apply (primecount_main_prints_ten_times_prime_count 4000 Hfuel).
Defined.

(** ** Termination of the recursive functions of [primecount.py] *)

(** With a divisor below 1 the recursion of [divisible] never stops: the
    argument does not decrease. *)
Lemma divisible_no_result_without_positive_divisor (fuel : nat) :
  forall n d : Z, d <= 0 -> d + 1 <= n ->
    Primecount.divisible fuel n d = OutOfFuel.
Proof.
  induction fuel as [| fuel IH]; intros n d Hd Hn; [reflexivity |].
  cbn [Primecount.divisible].
  destruct (Z.ltb_spec n d); [lia |].
  destruct (Z.ltb_spec n (d + 1)); [lia |].
  apply IH; lia.
Qed.

(** C10: for every divisor d >= 1 and every n, [divisible n d] returns, and
    so do [is_prime_from n d], [is_prime n] and [count_primes limit]: each
    yields a result within the stated fuel. *)
Theorem primecount_functions_terminate :
  forall n d limit : Z, 1 <= d ->
    (exists b : bool, Primecount.divisible (divisible_fuel n) n d = Ok b)
    /\ (exists b : bool,
          Primecount.is_prime_from (is_prime_from_fuel n d) n d = Ok b)
    /\ (exists b : bool, Primecount.is_prime (is_prime_fuel n) n = Ok b)
    /\ (exists c : Z,
          Primecount.count_primes (count_primes_fuel limit) limit = Ok c).
Proof.
  intros n d limit Hd. split; [| split; [| split]].
  - eexists. apply divisible_spec; [assumption | apply le_n].
  - destruct (is_prime_from_spec (is_prime_from_fuel n d) n d Hd (le_n _))
      as (b & Hb & _).
    exists b. exact Hb.
  - eexists. apply is_prime_spec. apply le_n.
  - eexists. apply count_primes_spec. apply le_n.
Qed.

Lemma primecount_functions_terminate_witness :
  1 <= 2 /\
  ((exists b : bool, Primecount.divisible (divisible_fuel 7) 7 2 = Ok b)
   /\ (exists b : bool,
         Primecount.is_prime_from (is_prime_from_fuel 7 2) 7 2 = Ok b)
   /\ (exists b : bool, Primecount.is_prime (is_prime_fuel 7) 7 = Ok b)
   /\ (exists c : Z,
         Primecount.count_primes (count_primes_fuel 10) 10 = Ok c)).
Proof.
  split; [lia |].
  apply (primecount_functions_terminate 7 2 10); lia.
Defined.

(** ** [while] loops: invariant, variant and fuel *)

Lemma while_loop_rule {S : Type} (I : S -> Prop) (m : S -> nat)
  (cond : S -> bool) (body : S -> result S) :
  (forall s, I s -> cond s = true ->
     exists s', body s = Ok s' /\ I s' /\ (m s' < m s)%nat) ->
  forall (fuel : nat) (s : S), I s -> (m s < fuel)%nat ->
    exists s', while_loop fuel cond body s = Ok s' /\ I s' /\ cond s' = false.
Proof.
  intros Hbody. induction fuel as [| fuel IH]; intros s HI Hm; [lia |].
  cbn [while_loop]. destruct (cond s) eqn:Hcond.
  - destruct (Hbody s HI Hcond) as (s1 & -> & HI1 & Hdec).
    rewrite bind_Ok. apply IH; [assumption | lia].
  - exists s. split; [reflexivity | split; assumption].
Qed.

Lemma while_loop_mono {S : Type} (cond : S -> bool)
  (body1 body2 : S -> result S) :
  (forall s s', body1 s = Ok s' -> body2 s = Ok s') ->
  forall (f1 f2 : nat) (s s' : S), (f1 <= f2)%nat ->
    while_loop f1 cond body1 s = Ok s' -> while_loop f2 cond body2 s = Ok s'.
Proof.
  intros Hbody. induction f1 as [| f1 IH]; intros f2 s s' Hle Hrun.
  - discriminate Hrun.
  - destruct f2 as [| f2]; [lia |].
    cbn [while_loop] in *. destruct (cond s); [| exact Hrun].
    destruct (body1 s) as [s1 | e |] eqn:Hb1; try discriminate Hrun.
    rewrite (Hbody s s1 Hb1). rewrite bind_Ok in *.
    apply IH; [lia | exact Hrun].
Qed.

(** ** [lcg_hash.py] *)

Lemma hash_loop_total (fuel : nat) :
  (fuel_needed K_lcg_hash <= fuel)%nat ->
  exists x acc i : Z,
    LcgHash.hash_loop fuel = Ok (x, acc, i) /\ 0 <= acc < LcgHash.MODV.
Proof.
  intros Hfuel. unfold fuel_needed in Hfuel. unfold LcgHash.hash_loop.
  destruct (while_loop_rule
              (fun '(x, acc, i) => 0 <= acc < LcgHash.MODV /\ 0 <= i)
              (fun '(x, acc, i) => Z.to_nat (LcgHash.N - i))
              (fun '(x, acc, i) => i <? LcgHash.N)
              (fun '(x, acc, i) =>
                 let x := (x * 48271) mod LcgHash.MODV in
                 let acc := (acc + x + i) mod LcgHash.MODV in
                 Ok (x, acc, i + 1)))
    with (fuel := fuel) (s := (1234567, 0, 0))
    as ([[x acc] i] & Hrun & [Hacc _] & _).
  - intros [[x acc] i] [Hacc Hi] Hcond. apply Z.ltb_lt in Hcond.
    eexists. split; [reflexivity |]. split; [split |].
    + apply Z.mod_pos_bound. unfold LcgHash.MODV. lia.
    + lia.
    + lia.
  - unfold LcgHash.MODV. lia.
  - lia.
  - exists x, acc, i. split; [exact Hrun | exact Hacc].
Qed.

Lemma hash_loop_mono (f1 f2 : nat) (r : Z * Z * Z) :
  (f1 <= f2)%nat ->
  LcgHash.hash_loop f1 = Ok r -> LcgHash.hash_loop f2 = Ok r.
Proof.
  intros Hle. unfold LcgHash.hash_loop.
  apply while_loop_mono; [| exact Hle]. intros s s' H. exact H.
Qed.

Lemma hash_loop_result :
  exists x acc i : Z,
    0 <= acc < LcgHash.MODV
    /\ forall fuel : nat, (fuel_needed K_lcg_hash <= fuel)%nat ->
         LcgHash.hash_loop fuel = Ok (x, acc, i).
Proof.
  destruct (hash_loop_total (fuel_needed K_lcg_hash) (le_n _))
    as (x & acc & i & Hrun & Hacc).
  exists x, acc, i. split; [exact Hacc |].
  intros fuel Hfuel. exact (hash_loop_mono _ fuel _ Hfuel Hrun).
Qed.

Lemma lcg_main_eq :
  exists acc : Z,
    0 <= acc < LcgHash.MODV
    /\ forall fuel : nat, (fuel_needed K_lcg_hash <= fuel)%nat ->
         LcgHash.main fuel = print (str_int acc).
Proof.
  destruct hash_loop_result as (x & acc & i & Hacc & Hrun).
  exists acc. split; [exact Hacc |].
  intros fuel Hfuel. unfold LcgHash.main.
  rewrite (Hrun fuel Hfuel). reflexivity.
Qed.

(** ** [particles_heavy.py] *)

Lemma py_index_in_range {A : Type} (l : list A) (i : Z) :
  0 <= i < Z.of_nat (length l) -> py_index l i = Ok (Z.to_nat i).
Proof.
  intros Hi. unfold py_index.
  destruct (Z.ltb_spec i 0); [lia |].
  destruct (Z.leb_spec 0 i); [| lia].
  destruct (Z.ltb_spec i (Z.of_nat (length l))); [| lia].
  reflexivity.
Qed.

Lemma getitem_in_range {A : Type} (l : list A) (i : Z) :
  0 <= i < Z.of_nat (length l) ->
  exists a, getitem l i = Ok a /\ l !! Z.to_nat i = Some a.
Proof.
  intros Hi. unfold getitem. rewrite py_index_in_range by assumption.
  rewrite bind_Ok.
  destruct (lookup_lt_is_Some_2 l (Z.to_nat i)) as [a Ha]; [lia |].
  exists a. rewrite Ha. split; reflexivity.
Qed.

Lemma setitem_in_range {A : Type} (l : list A) (i : Z) (v : A) :
  0 <= i < Z.of_nat (length l) ->
  setitem l i v = Ok (<[Z.to_nat i := v]> l).
Proof.
  intros Hi. unfold setitem. rewrite py_index_in_range by assumption.
  reflexivity.
Qed.

Lemma update_ok (step : Z) (ps : list ParticlesHeavy.Particle) (i : Z) :
  particles_ok ps -> 0 <= i < ParticlesHeavy.N ->
  exists ps', ParticlesHeavy.update step ps i = Ok ps' /\ particles_ok ps'.
Proof.
  intros [Hlen Hbins] Hi. unfold ParticlesHeavy.update.
  rewrite py_index_in_range by lia. rewrite bind_Ok.
  destruct (lookup_lt_is_Some_2 ps (Z.to_nat i)) as [p Hp]; [lia |].
  rewrite Hp.
  assert (Hp4 : length (ParticlesHeavy.bins p) = 4%nat)
    by (exact (proj1 (Forall_lookup _ _) Hbins _ _ Hp)).
  cbn [ParticlesHeavy.set_pos_x ParticlesHeavy.set_pos_y ParticlesHeavy.bins
       ParticlesHeavy.pos ParticlesHeavy.vel ParticlesHeavy.x ParticlesHeavy.y].
  assert (Hslot : 0 <= step mod 4 < 4) by (apply Z.mod_pos_bound; lia).
  destruct (getitem_in_range (ParticlesHeavy.bins p) (step mod 4))
    as (b & -> & _); [lia |].
  rewrite bind_Ok. rewrite setitem_in_range by lia. rewrite bind_Ok.
  eexists. split; [reflexivity |]. split.
  - rewrite length_insert. exact Hlen.
  - apply Forall_insert; [exact Hbins |].
    cbn [ParticlesHeavy.set_bins ParticlesHeavy.bins].
    rewrite length_insert. exact Hp4.
Qed.

Lemma inner_loop_total (fuel : nat) (step : Z)
  (ps : list ParticlesHeavy.Particle) :
  (fuel_needed K_particles <= fuel)%nat -> particles_ok ps ->
  exists ps' i',
    while_loop fuel (fun '(ps, i) => i <? ParticlesHeavy.N)
      (fun '(ps, i) => ps ← ParticlesHeavy.update step ps i; Ok (ps, i + 1))
      (ps, 0) = Ok (ps', i')
    /\ particles_ok ps'.
Proof.
  intros Hfuel Hok. unfold fuel_needed in Hfuel.
  destruct (while_loop_rule
              (fun '(ps, i) => particles_ok ps /\ 0 <= i)
              (fun '(ps, i) => Z.to_nat (ParticlesHeavy.N - i))
              (fun '(ps, i) => i <? ParticlesHeavy.N)
              (fun '(ps, i) =>
                 ps ← ParticlesHeavy.update step ps i; Ok (ps, i + 1)))
    with (fuel := fuel) (s := (ps, 0))
    as ([ps' i'] & Hrun & [Hok' _] & _).
  - intros [ps1 i] [Hok1 Hi] Hcond. apply Z.ltb_lt in Hcond.
    destruct (update_ok step ps1 i Hok1) as (ps2 & -> & Hok2); [lia |].
    rewrite bind_Ok. eexists. split; [reflexivity |].
    split; [split; [exact Hok2 | lia] | lia].
  - split; [exact Hok | lia].
  - lia.
  - exists ps', i'. split; [exact Hrun | exact Hok'].
Qed.

Lemma simulate_total (fuel : nat) (ps : list ParticlesHeavy.Particle) :
  (fuel_needed K_particles <= fuel)%nat -> particles_ok ps ->
  exists ps', ParticlesHeavy.simulate fuel ps = Ok ps' /\ particles_ok ps'.
Proof.
  intros Hfuel Hok. unfold ParticlesHeavy.simulate.
  destruct (while_loop_rule
              (fun '(ps, step) => particles_ok ps /\ 0 <= step)
              (fun '(ps, step) => Z.to_nat (ParticlesHeavy.STEPS - step))
              (fun '(ps, step) => step <? ParticlesHeavy.STEPS)
              (fun '(ps, step) =>
                 '(ps, i) ←
                   while_loop fuel (fun '(ps, i) => i <? ParticlesHeavy.N)
                     (fun '(ps, i) =>
                        ps ← ParticlesHeavy.update step ps i; Ok (ps, i + 1))
                     (ps, 0);
                 Ok (ps, step + 1)))
    with (fuel := fuel) (s := (ps, 0))
    as ([ps' step'] & Hrun & [Hok' _] & _).
  - intros [ps1 step] [Hok1 Hstep] Hcond. apply Z.ltb_lt in Hcond.
    destruct (inner_loop_total fuel step ps1 Hfuel Hok1)
      as (ps2 & i2 & -> & Hok2).
    rewrite bind_Ok. eexists. split; [reflexivity |].
    split; [split; [exact Hok2 | lia] | lia].
  - split; [exact Hok | lia].
  - unfold fuel_needed in Hfuel.
    unfold ParticlesHeavy.STEPS, ParticlesHeavy.N in *. lia.
  - exists ps'. rewrite Hrun. split; [reflexivity | exact Hok'].
Qed.

Lemma checksum_loop_total (fuel : nat) (ps : list ParticlesHeavy.Particle) :
  (fuel_needed K_particles <= fuel)%nat -> particles_ok ps ->
  exists c : Z,
    ParticlesHeavy.checksum_loop fuel ps = Ok c
    /\ 0 <= c < ParticlesHeavy.MODV.
Proof.
  intros Hfuel [Hlen Hbins]. unfold fuel_needed in Hfuel.
  unfold ParticlesHeavy.checksum_loop.
  destruct (while_loop_rule
              (fun '(checksum, i) =>
                 0 <= checksum < ParticlesHeavy.MODV /\ 0 <= i)
              (fun '(checksum, i) => Z.to_nat (ParticlesHeavy.N - i))
              (fun '(checksum, i) => i <? ParticlesHeavy.N)
              (fun '(checksum, i) =>
                 p ← getitem ps i;
                 b0 ← getitem (ParticlesHeavy.bins p) 0;
                 b1 ← getitem (ParticlesHeavy.bins p) 1;
                 b2 ← getitem (ParticlesHeavy.bins p) 2;
                 b3 ← getitem (ParticlesHeavy.bins p) 3;
                 Ok ((checksum + ParticlesHeavy.x (ParticlesHeavy.pos p)
                      + ParticlesHeavy.y (ParticlesHeavy.pos p)
                      + b0 + b1 + b2 + b3) mod ParticlesHeavy.MODV,
                     i + 1)))
    with (fuel := fuel) (s := (0, 0))
    as ([c i'] & Hrun & [Hc _] & _).
  - intros [c i] [Hc Hi] Hcond. apply Z.ltb_lt in Hcond.
    destruct (getitem_in_range ps i) as (p & -> & Hp); [lia |].
    rewrite bind_Ok.
    assert (Hp4 : length (ParticlesHeavy.bins p) = 4%nat)
      by (exact (proj1 (Forall_lookup _ _) Hbins _ _ Hp)).
    destruct (getitem_in_range (ParticlesHeavy.bins p) 0) as (b0 & -> & _);
      [lia |].
    destruct (getitem_in_range (ParticlesHeavy.bins p) 1) as (b1 & -> & _);
      [lia |].
    destruct (getitem_in_range (ParticlesHeavy.bins p) 2) as (b2 & -> & _);
      [lia |].
    destruct (getitem_in_range (ParticlesHeavy.bins p) 3) as (b3 & -> & _);
      [lia |].
    rewrite !bind_Ok. eexists. split; [reflexivity |].
    split; [split; [| lia] | lia].
    apply Z.mod_pos_bound. unfold ParticlesHeavy.MODV. lia.
  - unfold ParticlesHeavy.MODV. lia.
  - lia.
  - exists c. rewrite Hrun. split; [reflexivity | exact Hc].
Qed.

Lemma initial_particles_ok :
  particles_ok (ParticlesHeavy.Particle_init <$> py_range 0 ParticlesHeavy.N).
Proof.
  split.
  - rewrite length_fmap. unfold py_range. rewrite length_seqZ. lia.
  - apply Forall_fmap, Forall_forall. intros pid _. reflexivity.
Qed.

Lemma simulate_mono (f1 f2 : nat) (ps ps' : list ParticlesHeavy.Particle) :
  (f1 <= f2)%nat ->
  ParticlesHeavy.simulate f1 ps = Ok ps' ->
  ParticlesHeavy.simulate f2 ps = Ok ps'.
Proof.
  intros Hle. unfold ParticlesHeavy.simulate. intros Hrun.
  match type of Hrun with
  | (while_loop _ ?c ?b ?s ≫= _) = _ =>
      destruct (while_loop f1 c b s) as [[ps1 step1] | e |] eqn:Hw;
        try discriminate Hrun
  end.
  rewrite bind_Ok in Hrun.
  match goal with
  | |- (while_loop _ ?c ?b ?s ≫= _) = _ =>
      assert (Hw2 : while_loop f2 c b s = Ok (ps1, step1))
  end.
  { eapply while_loop_mono; [| exact Hle | exact Hw].
    intros [psa step] [psb stepb] Hbody.
    match type of Hbody with
    | (while_loop _ ?c ?b ?s ≫= _) = _ =>
        destruct (while_loop f1 c b s) as [[ps2 i2] | e |] eqn:Hin;
          try discriminate Hbody
    end.
    match goal with
    | |- (while_loop _ ?c ?b ?s ≫= _) = _ =>
        assert (Hin2 : while_loop f2 c b s = Ok (ps2, i2))
    end.
    { eapply while_loop_mono; [| exact Hle | exact Hin].
      intros s s' H. exact H. }
    rewrite Hin2. exact Hbody. }
  rewrite Hw2, bind_Ok. exact Hrun.
Qed.

Lemma checksum_loop_mono (f1 f2 : nat) (ps : list ParticlesHeavy.Particle)
  (c : Z) :
  (f1 <= f2)%nat ->
  ParticlesHeavy.checksum_loop f1 ps = Ok c ->
  ParticlesHeavy.checksum_loop f2 ps = Ok c.
Proof.
  intros Hle. unfold ParticlesHeavy.checksum_loop. intros Hrun.
  match type of Hrun with
  | (while_loop _ ?cn ?b ?s ≫= _) = _ =>
      destruct (while_loop f1 cn b s) as [[c1 i1] | e |] eqn:Hw;
        try discriminate Hrun
  end.
  rewrite bind_Ok in Hrun.
  match goal with
  | |- (while_loop _ ?cn ?b ?s ≫= _) = _ =>
      assert (Hw2 : while_loop f2 cn b s = Ok (c1, i1))
  end.
  { eapply while_loop_mono; [| exact Hle | exact Hw].
    intros s s' H. exact H. }
  rewrite Hw2, bind_Ok. exact Hrun.
Qed.

Lemma particles_result :
  exists (ps' : list ParticlesHeavy.Particle) (c : Z),
    0 <= c < ParticlesHeavy.MODV
    /\ forall fuel : nat, (fuel_needed K_particles <= fuel)%nat ->
         ParticlesHeavy.simulate fuel
           (ParticlesHeavy.Particle_init <$> py_range 0 ParticlesHeavy.N)
         = Ok ps'
         /\ ParticlesHeavy.checksum_loop fuel ps' = Ok c.
Proof.
  destruct (simulate_total (fuel_needed K_particles) _ (le_n _)
              initial_particles_ok) as (ps' & Hsim & Hok').
  destruct (checksum_loop_total (fuel_needed K_particles) ps' (le_n _) Hok')
    as (c & Hsum & Hc).
  exists ps', c. split; [exact Hc |].
  intros fuel Hfuel. split.
  - exact (simulate_mono _ fuel _ _ Hfuel Hsim).
  - exact (checksum_loop_mono _ fuel _ _ Hfuel Hsum).
Qed.

Lemma particles_main_eq :
  exists c : Z,
    0 <= c < ParticlesHeavy.MODV
    /\ forall fuel : nat, (fuel_needed K_particles <= fuel)%nat ->
         ParticlesHeavy.main fuel = print (str_int c).
Proof.
  destruct particles_result as (ps' & c & Hc & Hrun).
  exists c. split; [exact Hc |].
  intros fuel Hfuel. destruct (Hrun fuel Hfuel) as [Hsim Hsum].
  unfold ParticlesHeavy.main. rewrite Hsim.
  unfold lift, mbind, io_mbind. cbn [io_bind].
  rewrite Hsum. reflexivity.
Qed.

(** C4: the integer that [lcg_hash.py] prints is the final accumulator of
    its loop and lies in [0, 2147483647); the integer that
    [particles_heavy.py] prints is the final checksum of its checksum loop
    and lies in [0, 1000000007). *)
Theorem checksums_lie_below_their_moduli :
  forall f1 f2 : nat,
    (fuel_needed K_lcg_hash <= f1)%nat ->
    (fuel_needed K_particles <= f2)%nat ->
    (exists x acc i : Z,
       LcgHash.hash_loop f1 = Ok (x, acc, i)
       /\ runs (LcgHash.main f1) [EvPrint (str_int acc)] (Ok tt)
       /\ 0 <= acc < 2147483647)
    /\ (exists (ps' : list ParticlesHeavy.Particle) (checksum : Z),
          ParticlesHeavy.simulate f2
            (ParticlesHeavy.Particle_init <$> py_range 0 ParticlesHeavy.N)
          = Ok ps'
          /\ ParticlesHeavy.checksum_loop f2 ps' = Ok checksum
          /\ runs (ParticlesHeavy.main f2) [EvPrint (str_int checksum)] (Ok tt)
          /\ 0 <= checksum < 1000000007).
Proof.
  intros f1 f2 Hf1 Hf2. split.
  - destruct hash_loop_result as (x & acc & i & Hacc & Hrun).
    exists x, acc, i. split; [exact (Hrun f1 Hf1) |].
    split; [| exact Hacc].
    unfold LcgHash.main. rewrite (Hrun f1 Hf1). apply runs_print_one.
  - destruct particles_result as (ps' & c & Hc & Hrun).
    destruct (Hrun f2 Hf2) as [Hsim Hsum].
    exists ps', c. split; [exact Hsim | split; [exact Hsum |]].
    split; [| exact Hc].
    unfold ParticlesHeavy.main. rewrite Hsim.
    unfold lift, mbind, io_mbind. cbn [io_bind].
    rewrite Hsum. apply runs_print_one.
Qed.

Lemma checksums_lie_below_their_moduli_witness :
  (fuel_needed K_lcg_hash <= fuel_needed K_lcg_hash)%nat /\
  (fuel_needed K_particles <= fuel_needed K_particles)%nat /\
  ((exists x acc i : Z,
      LcgHash.hash_loop (fuel_needed K_lcg_hash) = Ok (x, acc, i)
      /\ runs (LcgHash.main (fuel_needed K_lcg_hash))
           [EvPrint (str_int acc)] (Ok tt)
      /\ 0 <= acc < 2147483647)
   /\ (exists (ps' : list ParticlesHeavy.Particle) (checksum : Z),
         ParticlesHeavy.simulate (fuel_needed K_particles)
           (ParticlesHeavy.Particle_init <$> py_range 0 ParticlesHeavy.N)
         = Ok ps'
         /\ ParticlesHeavy.checksum_loop (fuel_needed K_particles) ps'
            = Ok checksum
         /\ runs (ParticlesHeavy.main (fuel_needed K_particles))
              [EvPrint (str_int checksum)] (Ok tt)
         /\ 0 <= checksum < 1000000007)).
Proof.
  split; [apply le_n | split; [apply le_n |]].
  apply (checksums_lie_below_their_moduli
           (fuel_needed K_lcg_hash) (fuel_needed K_particles));
    apply le_n.
Defined.

(** ** What every kernel writes *)

Lemma uint_string_no_newline (d : Decimal.uint) :
  has_newline (NilEmpty.string_of_uint d) = false.
Proof. induction d as [| d IH | d IH | d IH | d IH | d IH | d IH | d IH | d IH | d IH | d IH]; cbn; auto. Qed.

Lemma str_int_no_newline (z : Z) : has_newline (str_int z) = false.
Proof.
  unfold str_int, NilZero.string_of_int, NilZero.string_of_uint.
  destruct (Z.to_int z) as [d | d].
  - destruct d; try apply uint_string_no_newline. reflexivity.
  - cbn [has_newline]. cbn [Ascii.eqb Bool.eqb orb].
    destruct d; try apply uint_string_no_newline. reflexivity.
Qed.

(** Given enough fuel, the main of each kernel is a single [print] of a
    line that does not depend on the fuel. *)
Lemma kernel_main_eq (k : kernel) :
  exists line : string,
    has_newline line = false
    /\ forall fuel : nat, (fuel_needed k <= fuel)%nat ->
         kernel_main k fuel = print line.
Proof.
  destruct k.
  - exists "2500500025000000.000000"%string. split; [reflexivity |].
    intros fuel _. apply loopsum_main_eq.
  - exists "165580141.000000"%string. split; [reflexivity |].
    intros fuel Hfuel. apply fib_main_eq. exact Hfuel.
  - exists "2900.000000"%string. split; [reflexivity |].
    intros fuel Hfuel. apply primecount_main_eq. exact Hfuel.
  - destruct particles_main_eq as (c & _ & Hmain).
    exists (str_int c). split; [apply str_int_no_newline | exact Hmain].
  - destruct lcg_main_eq as (acc & _ & Hmain).
    exists (str_int acc). split; [apply str_int_no_newline | exact Hmain].
Qed.

(** C5: two runs of a kernel, whatever the surroundings answer and whatever
    fuel beyond the needed amount they get, write the same bytes to standard
    output (and have the same trace and result). *)
Theorem kernel_runs_write_identical_stdout :
  forall (k : kernel) (f1 f2 : nat) (t1 t2 : list event) (r1 r2 : result unit),
    (fuel_needed k <= f1)%nat -> (fuel_needed k <= f2)%nat ->
    runs (kernel_main k f1) t1 r1 -> runs (kernel_main k f2) t2 r2 ->
    stdout t1 = stdout t2 /\ t1 = t2 /\ r1 = r2.
Proof.
  intros k f1 f2 t1 t2 r1 r2 Hf1 Hf2 Hrun1 Hrun2.
  destruct (kernel_main_eq k) as (line & _ & Hmain).
  rewrite (Hmain f1 Hf1) in Hrun1. rewrite (Hmain f2 Hf2) in Hrun2.
  apply runs_print_inv in Hrun1 as [-> ->].
  apply runs_print_inv in Hrun2 as [-> ->].
  repeat split.
Qed.

Lemma fib_kernel_run (fuel : nat) :
  (41 <= fuel)%nat ->
  runs (kernel_main K_fib fuel) [EvPrint "165580141.000000"] (Ok tt).
Proof.
  intros Hfuel. unfold kernel_main. rewrite fib_main_eq by exact Hfuel.
  apply runs_print_one.
Qed.

Lemma kernel_runs_write_identical_stdout_witness :
  (fuel_needed K_fib <= 41)%nat /\ (fuel_needed K_fib <= 50)%nat /\
  runs (kernel_main K_fib 41) [EvPrint "165580141.000000"] (Ok tt) /\
  runs (kernel_main K_fib 50) [EvPrint "165580141.000000"] (Ok tt) /\
  (stdout [EvPrint "165580141.000000"] = stdout [EvPrint "165580141.000000"]
   /\ [EvPrint "165580141.000000"] = [EvPrint "165580141.000000"]
   /\ Ok tt = Ok tt).
Proof.
  assert (H1 : (fuel_needed K_fib <= 41)%nat) by (cbn; lia).
  assert (H2 : (fuel_needed K_fib <= 50)%nat) by (cbn; lia).
  assert (R1 := fib_kernel_run 41 H1).
  assert (R2 := fib_kernel_run 50 H2).
  split; [exact H1 | split; [exact H2 | split; [exact R1 | split; [exact R2 |]]]].
  exact (kernel_runs_write_identical_stdout K_fib 41 50 _ _ _ _ H1 H2 R1 R2).
Defined.

(** C8: the main of every kernel writes exactly one line to standard output,
    by a single [print], and asks nothing of its surroundings: its only
    trace is that one print event. *)
Theorem every_kernel_prints_exactly_one_line :
  forall (k : kernel) (fuel : nat), (fuel_needed k <= fuel)%nat ->
    exists line : string,
      has_newline line = false
      /\ runs (kernel_main k fuel) [EvPrint line] (Ok tt)
      /\ stdout [EvPrint line] = line +:+ String "010" ""
      /\ forall (t : list event) (r : result unit),
           runs (kernel_main k fuel) t r -> t = [EvPrint line] /\ r = Ok tt.
Proof.
  intros k fuel Hfuel.
  destruct (kernel_main_eq k) as (line & Hline & Hmain).
  exists line. rewrite (Hmain fuel Hfuel).
  split; [exact Hline | split; [apply runs_print_one | split]].
  - reflexivity.
  - intros t r. apply runs_print_inv.
Qed.

Lemma every_kernel_prints_exactly_one_line_witness :
  (fuel_needed K_prime_count <= 4000)%nat /\
  exists line : string,
    has_newline line = false
    /\ runs (kernel_main K_prime_count 4000) [EvPrint line] (Ok tt)
    /\ stdout [EvPrint line] = line +:+ String "010" ""
    /\ forall (t : list event) (r : result unit),
         runs (kernel_main K_prime_count 4000) t r ->
         t = [EvPrint line] /\ r = Ok tt.
Proof.
  assert (Hfuel : (fuel_needed K_prime_count <= 4000)%nat)
    by (vm_compute; lia).
  split; [exact Hfuel |].
  exact (every_kernel_prints_exactly_one_line K_prime_count 4000 Hfuel).
Defined.

(** ** [lit.cfg.py] *)

Section LitCfgProperties.

Context `{os_path : LitCfg.OsPath}.

(** C6: the script registers exactly one substitution, the token %pyxc,
    mapped to the absolute parent directory of the test-source root joined
    with build and pyxc. *)
Theorem lit_cfg_registers_the_pyxc_token :
  forall (file : string) (config : LitCfg.TestingConfig),
    let root := LitCfg.test_source_root (LitCfg.lit_cfg file config) in
    let build_root := LitCfg.abspath (LitCfg.join root [".."%string]) in
    root = LitCfg.dirname file
    /\ LitCfg.substitutions (LitCfg.lit_cfg file config)
       = LitCfg.substitutions config
         ++ [("%pyxc"%string,
              LitCfg.join build_root ["build"%string; "pyxc"%string])].
Proof. intros file config. split; reflexivity. Qed.

(** C7: after the script, the test-execution root equals the test-source
    root, which is the directory of the configuration file, and the
    suffixes are exactly [".pyxc"]. *)
Theorem lit_cfg_sets_roots_and_suffixes :
  forall (file : string) (config : LitCfg.TestingConfig),
    LitCfg.test_exec_root (LitCfg.lit_cfg file config)
    = LitCfg.test_source_root (LitCfg.lit_cfg file config)
    /\ LitCfg.test_source_root (LitCfg.lit_cfg file config)
       = LitCfg.dirname file
    /\ LitCfg.suffixes (LitCfg.lit_cfg file config) = [".pyxc"%string].
Proof. intros file config. repeat split. Qed.

End LitCfgProperties.

(** The script on a POSIX system, started by lit on a fresh configuration
    with the path of the script. *)
Example lit_cfg_posix_absolute :
  @LitCfg.lit_cfg (posix_os_path "/tmp")
    "/repo/code/chapter06/test/lit.cfg.py" fresh_config
  = {| LitCfg.name := "pyxc-chapter06";
       LitCfg.test_format := LitCfg.ShTest true;
       LitCfg.suffixes := [".pyxc"%string];
       LitCfg.test_source_root := "/repo/code/chapter06/test";
       LitCfg.test_exec_root := "/repo/code/chapter06/test";
       LitCfg.substitutions :=
         [("%pyxc"%string, "/repo/code/chapter06/build/pyxc"%string)] |}.
Proof. vm_compute. reflexivity. Qed.

Example lit_cfg_posix_relative :
  LitCfg.substitutions
    (@LitCfg.lit_cfg (posix_os_path "/repo/code/chapter06")
       "test/lit.cfg.py" fresh_config)
  = [("%pyxc"%string, "/repo/code/chapter06/build/pyxc"%string)].
Proof. vm_compute. reflexivity. Qed.

(** ** Further properties of [primecount.py] *)

(** X1: for a divisor d >= 1, [divisible n d] is True exactly when n is a
    positive multiple of d; in particular it is False for n <= 0. *)
Theorem divisible_decides_positive_multiples :
  forall (fuel : nat) (n d : Z),
    1 <= d -> (divisible_fuel n <= fuel)%nat ->
    exists b : bool,
      Primecount.divisible fuel n d = Ok b
      /\ (b = true <-> 0 < n /\ (d | n)).
Proof.
  intros fuel n d Hd Hfuel. eexists. split.
  - apply divisible_spec; assumption.
  - rewrite andb_true_iff, Z.ltb_lt, Z.eqb_eq.
    split; intros [Hn Hdiv]; (split; [exact Hn |]).
    + apply Z.mod_divide; [lia | exact Hdiv].
    + apply Z.mod_divide; [lia | exact Hdiv].
Qed.

Lemma divisible_decides_positive_multiples_witness :
  1 <= 3 /\ (divisible_fuel 6 <= 7)%nat /\
  exists b : bool,
    Primecount.divisible 7 6 3 = Ok b /\ (b = true <-> 0 < 6 /\ (3 | 6)).
Proof.
  assert (Hfuel : (divisible_fuel 6 <= 7)%nat) by (vm_compute; lia).
  split; [lia | split; [exact Hfuel |]].
  apply (divisible_decides_positive_multiples 7 6 3); [lia | exact Hfuel].
Defined.

(** X2: with a divisor d <= 0, [divisible n d] is False for n < d, True for
    n = d (so [divisible 0 0] is True) and does not return for n > d. *)
Theorem divisible_with_nonpositive_divisor :
  forall (fuel : nat) (n d : Z), d <= 0 ->
    Primecount.divisible (S fuel) n d
    = if n <? d then Ok false else if n =? d then Ok true else OutOfFuel.
Proof.
  intros fuel n d Hd. cbn [Primecount.divisible].
  destruct (Z.ltb_spec n d) as [Hlt | Hge]; [reflexivity |].
  destruct (Z.eqb_spec n d) as [-> | Hne].
  - destruct (Z.ltb_spec d (d + 1)); [reflexivity | lia].
  - destruct (Z.ltb_spec n (d + 1)); [lia |].
    apply divisible_no_result_without_positive_divisor; lia.
Qed.

Lemma divisible_with_nonpositive_divisor_witness :
  0 <= 0 /\
  Primecount.divisible (S 50) 0 0
  = if 0 <? 0 then Ok false else if 0 =? 0 then Ok true else OutOfFuel.
Proof.
  split; [lia |].
  apply (divisible_with_nonpositive_divisor 50 0 0). lia.
Defined.

Lemma divisible_depth_step (n d : Z) :
  1 <= d -> d + 1 <= n ->
  divisible_depth n d = S (divisible_depth (n - d) d).
Proof.
  intros Hd Hn. unfold divisible_depth.
  replace (n + d - 1) with ((n - d + d - 1) + 1 * d) by ring.
  rewrite Z.div_add by lia.
  assert (0 <= (n - d + d - 1) / d) by (apply Z.div_pos; lia).
  assert (1 <= (n - d + d - 1) / d).
  { apply Z.div_le_lower_bound; lia. }
  lia.
Qed.

Lemma divisible_depth_base (n d : Z) :
  1 <= d -> n <= d -> divisible_depth n d = 1%nat.
Proof.
  intros Hd Hn. unfold divisible_depth.
  assert ((n + d - 1) / d <= 1).
  { apply Z.lt_succ_r. apply Z.div_lt_upper_bound; lia. }
  lia.
Qed.

Lemma positive_multiple_below (n d : Z) :
  1 <= d -> n < d -> (0 <? n) && (n mod d =? 0) = false.
Proof.
  intros Hd Hn. apply andb_false_iff.
  destruct (Z.ltb_spec 0 n) as [Hpos | Hneg]; [right | left; reflexivity].
  apply Z.eqb_neq. rewrite Z.mod_small; lia.
Qed.

Lemma positive_multiple_shift (n d : Z) :
  1 <= d -> d + 1 <= n ->
  (0 <? n - d) && ((n - d) mod d =? 0) = (0 <? n) && (n mod d =? 0).
Proof.
  intros Hd Hn.
  replace (n - d) with (n + (-1) * d) by ring.
  rewrite Z_mod_plus_full. f_equal.
  destruct (Z.ltb_spec 0 (n + -1 * d)), (Z.ltb_spec 0 n); (reflexivity || lia).
Qed.

Lemma divisible_exact (fuel : nat) : forall n d : Z,
  1 <= d ->
  Primecount.divisible fuel n d
  = if (fuel <? divisible_depth n d)%nat then OutOfFuel
    else Ok ((0 <? n) && (n mod d =? 0)).
Proof.
  induction fuel as [| fuel IH]; intros n d Hd.
  - assert (0 < divisible_depth n d)%nat by (unfold divisible_depth; lia).
    destruct (Nat.ltb_spec 0 (divisible_depth n d)); [reflexivity | lia].
  - cbn [Primecount.divisible].
    destruct (Z.ltb_spec n d) as [Hlt | Hge].
    + rewrite divisible_depth_base by lia.
      rewrite positive_multiple_below by assumption.
      destruct (Nat.ltb_spec (S fuel) 1); [lia | reflexivity].
    + destruct (Z.ltb_spec n (d + 1)) as [Heq | Hgt].
      * rewrite divisible_depth_base by lia.
        assert (n = d) as -> by lia.
        rewrite Z_mod_same_full.
        destruct (Z.ltb_spec 0 d); [| lia].
        destruct (Nat.ltb_spec (S fuel) 1); [lia | reflexivity].
      * rewrite IH by assumption.
        rewrite (divisible_depth_step n d) by lia.
        rewrite positive_multiple_shift by lia.
        destruct (Nat.ltb_spec fuel (divisible_depth (n - d) d)),
                 (Nat.ltb_spec (S fuel) (S (divisible_depth (n - d) d)));
          (reflexivity || lia).
Qed.

(** X3: for d >= 1, [divisible n d] nests exactly max(1, ceil(n/d)) calls: it
    returns when that many nested calls are available and not with fewer. *)
Theorem divisible_recursion_depth :
  forall (fuel : nat) (n d : Z), 1 <= d ->
    Z.of_nat (divisible_depth n d) = Z.max 1 ((n + d - 1) / d)
    /\ (Primecount.divisible fuel n d = OutOfFuel
        <-> (fuel < divisible_depth n d)%nat)
    /\ (Primecount.divisible fuel n d = Ok ((0 <? n) && (n mod d =? 0))
        <-> (divisible_depth n d <= fuel)%nat).
Proof.
  intros fuel n d Hd. rewrite divisible_exact by assumption.
  split; [unfold divisible_depth; lia |].
  destruct (Nat.ltb_spec fuel (divisible_depth n d)) as [Hlt | Hge].
  - split; split; (reflexivity || discriminate || lia).
  - split; split; (reflexivity || discriminate || lia).
Qed.

Lemma divisible_recursion_depth_witness :
  1 <= 3 /\
  (Z.of_nat (divisible_depth 10 3) = Z.max 1 ((10 + 3 - 1) / 3)
   /\ (Primecount.divisible 3 10 3 = OutOfFuel
       <-> (3 < divisible_depth 10 3)%nat)
   /\ (Primecount.divisible 3 10 3 = Ok ((0 <? 10) && (10 mod 3 =? 0))
       <-> (divisible_depth 10 3 <= 3)%nat)).
Proof.
  split; [lia |].
  apply (divisible_recursion_depth 3 10 3). lia.
Defined.

(** X4: [is_prime_from n d] with d >= 1 is True exactly when no k with
    d <= k and k * k <= n divides n; so it is True whenever d * d > n, also
    for a composite n. *)
Theorem is_prime_from_checks_divisors_up_to_the_root :
  forall (fuel : nat) (n d : Z),
    1 <= d -> (is_prime_from_fuel n d <= fuel)%nat ->
    exists b : bool,
      Primecount.is_prime_from fuel n d = Ok b
      /\ (b = true <-> forall k : Z, d <= k -> k * k <= n -> ~ (k | n))
      /\ (n < d * d -> b = true).
Proof.
  intros fuel n d Hd Hfuel.
  destruct (is_prime_from_spec fuel n d Hd Hfuel) as (b & Hb & Hspec).
  exists b. split; [exact Hb | split; [exact Hspec |]].
  intros Hsq. apply Hspec. intros k Hk Hkk. nia.
Qed.

Lemma is_prime_from_checks_divisors_up_to_the_root_witness :
  1 <= 6 /\ (is_prime_from_fuel 35 6 <= 100)%nat /\
  exists b : bool,
    Primecount.is_prime_from 100 35 6 = Ok b
    /\ (b = true <-> forall k : Z, 6 <= k -> k * k <= 35 -> ~ (k | 35))
    /\ (35 < 6 * 6 -> b = true).
Proof.
  assert (Hfuel : (is_prime_from_fuel 35 6 <= 100)%nat) by (vm_compute; lia).
  split; [lia | split; [exact Hfuel |]].
  apply (is_prime_from_checks_divisors_up_to_the_root 100 35 6);
    [lia | exact Hfuel].
Defined.

Lemma prime_count_upto_below_2 (limit : Z) :
  limit < 2 -> prime_count_upto limit = 0.
Proof.
  intros Hl. unfold prime_count_upto, py_range.
  rewrite seqZ_nil by lia. reflexivity.
Qed.

Lemma prime_count_upto_succ (limit : Z) :
  1 <= limit ->
  prime_count_upto (limit + 1)
  = prime_count_upto limit + (if bool_decide (Z.prime (limit + 1)) then 1 else 0).
Proof.
  intros Hl. unfold prime_count_upto, py_range.
  replace (limit + 1 + 1 - 2) with (Z.of_nat (S (Z.to_nat (limit - 1)))) by lia.
  rewrite seqZ_S. rewrite filter_app, length_app.
  replace (Z.of_nat (Z.to_nat (limit - 1))) with (limit + 1 - 2) by lia.
  replace (2 + (limit + 1 - 2)) with (limit + 1) by lia.
  rewrite filter_cons, filter_nil.
  destruct (decide (Z.prime (limit + 1))) as [Hp | Hnp].
  - rewrite bool_decide_eq_true_2 by assumption. cbn [length]. lia.
  - rewrite bool_decide_eq_false_2 by assumption. cbn [length]. lia.
Qed.

Lemma prime_count_upto_bounds (limit : Z) :
  0 <= prime_count_upto limit <= Z.max 0 (limit - 1).
Proof.
  unfold prime_count_upto, py_range. split; [lia |].
  pose proof (length_filter Z.prime (seqZ 2 (limit + 1 - 2))) as Hlen.
  rewrite length_seqZ in Hlen. lia.
Qed.

Lemma prime_count_upto_mono_nat (limit : Z) (k : nat) :
  prime_count_upto limit <= prime_count_upto (limit + Z.of_nat k).
Proof.
  induction k as [| k IH].
  - replace (limit + Z.of_nat 0) with limit by lia. lia.
  - replace (limit + Z.of_nat (S k)) with (limit + Z.of_nat k + 1) by lia.
    destruct (Z_lt_le_dec (limit + Z.of_nat k) 1) as [Hsmall | Hbig].
    + rewrite (prime_count_upto_below_2 limit) by lia.
      apply prime_count_upto_bounds.
    + rewrite prime_count_upto_succ by lia.
      destruct (bool_decide (Z.prime (limit + Z.of_nat k + 1))); lia.
Qed.

(** X5: for every limit, [count_primes limit] is the number of primes in
    [2, limit]; it is 0 for limit < 2, at most limit - 1 otherwise, and it
    does not decrease when the limit grows. *)
Theorem count_primes_counts_the_primes_up_to_limit :
  forall (fuel : nat) (limit limit' : Z),
    (count_primes_fuel limit' <= fuel)%nat -> limit <= limit' ->
    exists c c' : Z,
      Primecount.count_primes fuel limit = Ok c
      /\ Primecount.count_primes fuel limit' = Ok c'
      /\ c = Z.of_nat (length (filter Z.prime (seqZ 2 (limit - 1))))
      /\ (limit < 2 -> c = 0)
      /\ 0 <= c <= Z.max 0 (limit - 1)
      /\ c <= c'.
Proof.
  intros fuel limit limit' Hfuel Hle.
  exists (prime_count_upto limit), (prime_count_upto limit').
  split; [| split; [| split; [| split; [| split]]]].
  - apply count_primes_spec. etransitivity; [| exact Hfuel].
    unfold count_primes_fuel. apply is_prime_fuel_mono. exact Hle.
  - apply count_primes_spec. exact Hfuel.
  - unfold prime_count_upto, py_range. do 4 f_equal. lia.
  - apply prime_count_upto_below_2.
  - apply prime_count_upto_bounds.
  - replace limit' with (limit + Z.of_nat (Z.to_nat (limit' - limit))) by lia.
    apply prime_count_upto_mono_nat.
Qed.

Lemma count_primes_counts_the_primes_up_to_limit_witness :
  (count_primes_fuel 20 <= 50)%nat /\ 10 <= 20 /\
  exists c c' : Z,
    Primecount.count_primes 50 10 = Ok c
    /\ Primecount.count_primes 50 20 = Ok c'
    /\ c = Z.of_nat (length (filter Z.prime (seqZ 2 (10 - 1))))
    /\ (10 < 2 -> c = 0)
    /\ 0 <= c <= Z.max 0 (10 - 1)
    /\ c <= c'.
Proof.
  assert (Hfuel : (count_primes_fuel 20 <= 50)%nat) by (vm_compute; lia).
  split; [exact Hfuel | split; [lia |]].
  apply (count_primes_counts_the_primes_up_to_limit 50 10 20);
    [exact Hfuel | lia].
Defined.

(** ** Recursion depth of [is_prime] *)










(** ** Further properties of [fib39.py] *)

Lemma fib_value_rec (n : Z) :
  3 <= n -> fib_value n = fib_value (n - 1) + fib_value (n - 2).
Proof.
  intros Hn. unfold fib_value.
  destruct (Z.ltb_spec n 3); [lia |].
  destruct (Z.ltb_spec (n - 1) 3), (Z.ltb_spec (n - 2) 3); try lia.
  - assert (n = 3) as -> by lia. reflexivity.
  - assert (n = 4) as -> by lia. reflexivity.
  - replace (Z.to_nat n) with (S (S (S (Z.to_nat (n - 3))))) by lia.
    replace (Z.to_nat (n - 1)) with (S (S (Z.to_nat (n - 3)))) by lia.
    replace (Z.to_nat (n - 2)) with (S (Z.to_nat (n - 3))) by lia.
    apply fib_seq_rec.
Qed.

Lemma fib_exact (fuel : nat) : forall n : Z,
  Fib39.fib fuel n
  = if (fuel <? fib_depth n)%nat then OutOfFuel else Ok (fib_value n).
Proof.
  induction fuel as [| fuel IH]; intros n.
  - assert (0 < fib_depth n)%nat by (unfold fib_depth; lia).
    destruct (Nat.ltb_spec 0 (fib_depth n)); [reflexivity | lia].
  - cbn [Fib39.fib]. destruct (Z.ltb_spec n 3) as [Hlt | Hge].
    + assert (fib_depth n = 1%nat) as -> by (unfold fib_depth; lia).
      destruct (Nat.ltb_spec (S fuel) 1); [lia |].
      unfold fib_value. destruct (Z.ltb_spec n 3); [reflexivity | lia].
    + rewrite !IH.
      assert (Hd : fib_depth n = S (fib_depth (n - 1)))
        by (unfold fib_depth; lia).
      assert (Hd2 : (fib_depth (n - 2) <= fib_depth (n - 1))%nat)
        by (unfold fib_depth; lia).
      rewrite Hd.
      destruct (Nat.ltb_spec fuel (fib_depth (n - 1))) as [Hsmall | Hbig].
      * destruct (Nat.ltb_spec (S fuel) (S (fib_depth (n - 1))));
          [reflexivity | lia].
      * destruct (Nat.ltb_spec fuel (fib_depth (n - 2))); [lia |].
        destruct (Nat.ltb_spec (S fuel) (S (fib_depth (n - 1)))); [lia |].
        rewrite !bind_Ok. rewrite (fib_value_rec n) by lia. reflexivity.
Qed.




(** X8: [fib n] is 1 for every n < 3, zero and negative numbers included,
    and the sequence value from 3 on; it nests exactly max(1, n - 1) calls:
    it returns when that many nested calls are available and not with
    fewer. *)
Theorem fib_value_and_recursion_depth :
  forall (fuel : nat) (n : Z),
    Z.of_nat (fib_depth n) = Z.max 1 (n - 1)
    /\ (Fib39.fib fuel n = OutOfFuel <-> (fuel < fib_depth n)%nat)
    /\ (Fib39.fib fuel n = Ok (if n <? 3 then 1 else fib_seq (Z.to_nat n))
        <-> (fib_depth n <= fuel)%nat).
Proof.
  intros fuel n. rewrite fib_exact. fold (fib_value n).
  split; [unfold fib_depth; lia |].
  destruct (Nat.ltb_spec fuel (fib_depth n)) as [Hlt | Hge].
  - split; split; (reflexivity || discriminate || lia).
  - split; split; (reflexivity || discriminate || lia).
Qed.



(** ** Further properties of [loopsum.py] *)

Lemma tri_nonneg (k : Z) : 0 <= k -> 0 <= tri k.
Proof. intros Hk. unfold tri. apply Z.div_pos; nia. Qed.

Lemma fold_left_constant {A B : Type} (l : list B) (a : A) :
  fold_left (fun total _ => total) l a = a.
Proof. induction l as [| b l IH]; [reflexivity | exact IH]. Qed.

Lemma loopsum_empty_outer (n m : Z) : n <= 0 -> Loopsum.loopsum n m = 0.
Proof.
  intros Hn. unfold Loopsum.loopsum, py_range.
  rewrite (seqZ_nil 1 (n + 1 - 1)) by lia. reflexivity.
Qed.

Lemma loopsum_empty_inner (n m : Z) : m <= 0 -> Loopsum.loopsum n m = 0.
Proof.
  intros Hm. unfold Loopsum.loopsum, py_range.
  rewrite (seqZ_nil 1 (m + 1 - 1)) by lia. cbn [fold_left].
  apply fold_left_constant.
Qed.

Lemma loopsum_formula (n m : Z) :
  Loopsum.loopsum n m = tri (Z.max 0 n) * tri (Z.max 0 m).
Proof.
  destruct (Z_le_gt_dec n 0) as [Hn | Hn].
  - rewrite loopsum_empty_outer by assumption.
    replace (Z.max 0 n) with 0 by lia. reflexivity.
  - destruct (Z_le_gt_dec m 0) as [Hm | Hm].
    + rewrite loopsum_empty_inner by assumption.
      replace (Z.max 0 m) with 0 by lia. change (tri 0) with 0. lia.
    + rewrite loopsum_closed_form by lia.
      replace (Z.max 0 n) with n by lia. replace (Z.max 0 m) with m by lia.
      reflexivity.
Qed.

(** X10: on all integers [loopsum n m] is the product of the triangular
    numbers of max(0, n) and max(0, m): it is 0 as soon as one range is
    empty, never negative, and symmetric in its arguments. *)
Theorem loopsum_on_all_integers :
  forall n m : Z,
    Loopsum.loopsum n m
    = (Z.max 0 n * (Z.max 0 n + 1) / 2) * (Z.max 0 m * (Z.max 0 m + 1) / 2)
    /\ Loopsum.loopsum (Z.min n 0) m = 0
    /\ Loopsum.loopsum n (Z.min m 0) = 0
    /\ 0 <= Loopsum.loopsum n m
    /\ Loopsum.loopsum n m = Loopsum.loopsum m n.
Proof.
  intros n m. split; [apply loopsum_formula |].
  split; [apply loopsum_empty_outer; lia |].
  split; [apply loopsum_empty_inner; lia |].
  split.
  - rewrite loopsum_formula.
    apply Z.mul_nonneg_nonneg; apply tri_nonneg; lia.
  - rewrite !loopsum_formula. ring.
Qed.

(** ** Further properties of [lcg_hash.py] *)

Lemma while_loop_exhausts {S : Type} (I : S -> Prop) (m : S -> nat)
  (cond : S -> bool) (body : S -> result S) :
  (forall s, I s -> (0 < m s)%nat ->
     cond s = true
     /\ exists s', body s = Ok s' /\ I s' /\ m s = Datatypes.S (m s')) ->
  forall (fuel : nat) (s : S), I s -> (fuel <= m s)%nat ->
    while_loop fuel cond body s = OutOfFuel.
Proof.
  intros Hbody. induction fuel as [| fuel IH]; intros s HI Hm; [reflexivity |].
  cbn [while_loop].
  destruct (Hbody s HI) as (-> & s1 & -> & HI1 & Hdec); [lia |].
  rewrite bind_Ok. apply IH; [exact HI1 | lia].
Qed.

Lemma lcg_modulus_pos : 0 < LcgHash.MODV.
Proof. reflexivity. Qed.

Lemma lcg_x_succ (k : Z) :
  0 <= k -> lcg_x (k + 1) = (lcg_x k * 48271) mod LcgHash.MODV.
Proof.
  intros Hk. unfold lcg_x.
  rewrite Z.mul_mod_idemp_l by (pose proof lcg_modulus_pos; lia).
  rewrite Z.pow_add_r by lia. rewrite Z.pow_1_r.
  f_equal. ring.
Qed.

Lemma lcg_x_invertible (k : nat) :
  exists y : Z, (lcg_x (Z.of_nat k) * y) mod LcgHash.MODV = 1.
Proof.
  pose proof lcg_modulus_pos as HM.
  induction k as [| k [y Hy]].
  - exists 934930065. vm_compute. reflexivity.
  - exists (y * 1899818559).
    replace (Z.of_nat (S k)) with (Z.of_nat k + 1) by lia.
    rewrite lcg_x_succ by lia.
    rewrite Z.mul_mod_idemp_l by lia.
    replace (lcg_x (Z.of_nat k) * 48271 * (y * 1899818559))
      with ((lcg_x (Z.of_nat k) * y) * (48271 * 1899818559)) by ring.
    rewrite Z.mul_mod by lia. rewrite Hy.
    assert (Hinv : (48271 * 1899818559) mod LcgHash.MODV = 1)
      by (vm_compute; reflexivity).
    rewrite Hinv. vm_compute. reflexivity.
Qed.

Lemma lcg_x_range (k : Z) : 0 <= k -> 1 <= lcg_x k < LcgHash.MODV.
Proof.
  intros Hk. pose proof lcg_modulus_pos as HM.
  destruct (lcg_x_invertible (Z.to_nat k)) as [y Hy].
  rewrite Z2Nat.id in Hy by assumption.
  assert (Hmod : 0 <= lcg_x k < LcgHash.MODV)
    by (unfold lcg_x; apply Z.mod_pos_bound; exact HM).
  destruct (Z.eq_dec (lcg_x k) 0) as [Hzero | Hnz]; [| lia].
  rewrite Hzero in Hy. rewrite Z.mul_0_l, Z.mod_0_l in Hy by lia.
  discriminate Hy.
Qed.

Lemma lcg_sum_succ (k : Z) :
  0 <= k ->
  lcg_sum (Z.to_nat (k + 1)) = lcg_sum (Z.to_nat k) + lcg_x (k + 1) + k.
Proof.
  intros Hk. replace (Z.to_nat (k + 1)) with (S (Z.to_nat k)) by lia.
  cbn [lcg_sum]. rewrite Z2Nat.id by assumption.
  replace (Z.of_nat (S (Z.to_nat k))) with (k + 1) by lia. reflexivity.
Qed.

Lemma lcg_N_nonneg : 0 <= LcgHash.N.
Proof. discriminate. Qed.

Lemma hash_loop_closed_form (fuel : nat) :
  (fuel_needed K_lcg_hash <= fuel)%nat ->
  LcgHash.hash_loop fuel
  = Ok (lcg_x LcgHash.N,
        lcg_sum (Z.to_nat LcgHash.N) mod LcgHash.MODV,
        LcgHash.N).
Proof.
  intros Hfuel. unfold fuel_needed in Hfuel.
  pose proof lcg_N_nonneg as HN. pose proof lcg_modulus_pos as HM.
  unfold LcgHash.hash_loop.
  destruct (while_loop_rule
              (fun '(x, acc, i) =>
                 0 <= i <= LcgHash.N /\ x = lcg_x i
                 /\ acc = lcg_sum (Z.to_nat i) mod LcgHash.MODV)
              (fun '(x, acc, i) => Z.to_nat (LcgHash.N - i))
              (fun '(x, acc, i) => i <? LcgHash.N)
              (fun '(x, acc, i) =>
                 let x := (x * 48271) mod LcgHash.MODV in
                 let acc := (acc + x + i) mod LcgHash.MODV in
                 Ok (x, acc, i + 1)))
    with (fuel := fuel) (s := (1234567, 0, 0))
    as ([[x acc] i] & Hrun & (Hi & Hx & Hacc) & Hcond).
  - intros [[x acc] i] (Hi & Hx & Hacc) Hcond. apply Z.ltb_lt in Hcond.
    eexists. split; [reflexivity |]. split; [split; [lia | split] | lia].
    + rewrite lcg_x_succ by lia. rewrite Hx. reflexivity.
    + rewrite lcg_sum_succ by lia. rewrite lcg_x_succ by lia.
      rewrite Hx, Hacc.
      rewrite <- Z.add_assoc. rewrite Z.add_mod_idemp_l by lia.
      f_equal. ring.
  - split; [lia | split; reflexivity].
  - lia.
  - apply Z.ltb_ge in Hcond. assert (i = LcgHash.N) as -> by lia.
    subst x acc. exact Hrun.
Qed.

Lemma hash_loop_exhausts (fuel : nat) :
  (fuel <= Z.to_nat LcgHash.N)%nat -> LcgHash.hash_loop fuel = OutOfFuel.
Proof.
  intros Hfuel. pose proof lcg_N_nonneg as HN. unfold LcgHash.hash_loop.
  apply (while_loop_exhausts
           (fun '(x, acc, i) => 0 <= i <= LcgHash.N)
           (fun '(x, acc, i) => Z.to_nat (LcgHash.N - i))).
  - intros [[x acc] i] Hi Hm. split.
    + apply Z.ltb_lt. lia.
    + eexists. split; [reflexivity |]. split; lia.
  - lia.
  - lia.
Qed.

(** X11: the loop of [lcg_hash.py] ends with i = N, with
    x = 1234567 * 48271 ^ N mod MODV ([lcg_x N]) and with acc equal to the
    sum over k < N of (x after k + 1 steps) + k, reduced modulo MODV once:
    reducing at every update changes nothing.  The generator never reaches
    0: after any number of steps x lies in [1, MODV). *)
Theorem hash_loop_final_state :
  forall fuel : nat, (fuel_needed K_lcg_hash <= fuel)%nat ->
    LcgHash.hash_loop fuel
    = Ok (lcg_x LcgHash.N,
          lcg_sum (Z.to_nat LcgHash.N) mod LcgHash.MODV,
          LcgHash.N)
    /\ (forall k : Z, 0 <= k -> 1 <= lcg_x k < LcgHash.MODV).
Proof.
  intros fuel Hfuel. split.
  - exact (hash_loop_closed_form fuel Hfuel).
  - exact lcg_x_range.
Qed.

Lemma hash_loop_final_state_witness :
  (fuel_needed K_lcg_hash <= fuel_needed K_lcg_hash)%nat /\
  (LcgHash.hash_loop (fuel_needed K_lcg_hash)
   = Ok (lcg_x LcgHash.N,
         lcg_sum (Z.to_nat LcgHash.N) mod LcgHash.MODV,
         LcgHash.N)
   /\ (forall k : Z, 0 <= k -> 1 <= lcg_x k < LcgHash.MODV)).
Proof.
  split; [apply le_n |].
  exact (hash_loop_final_state (fuel_needed K_lcg_hash) (le_n _)).
Defined.

(** X12: the loop of [lcg_hash.py] makes exactly N = 200000000 passes: it
    ends within [fuel] tests of its condition exactly when fuel > N. *)
Theorem hash_loop_makes_exactly_N_passes :
  forall fuel : nat,
    (LcgHash.hash_loop fuel = OutOfFuel <-> Z.of_nat fuel <= 200000000)
    /\ ((exists x acc : Z, LcgHash.hash_loop fuel = Ok (x, acc, 200000000))
        <-> 200000000 < Z.of_nat fuel).
Proof.
  intros fuel. pose proof lcg_N_nonneg as HN.
  assert (HNv : LcgHash.N = 200000000) by reflexivity.
  destruct (Nat.le_gt_cases fuel (Z.to_nat LcgHash.N)) as [Hle | Hgt].
  - rewrite (hash_loop_exhausts fuel Hle). split; split.
    + intros _. lia.
    + reflexivity.
    + intros (x & acc & Hrun). discriminate Hrun.
    + intros Hlt. lia.
  - rewrite (hash_loop_closed_form fuel) by (unfold fuel_needed; lia).
    split; split.
    + discriminate.
    + intros Hlt. lia.
    + intros _. lia.
    + intros _. rewrite <- HNv. eexists. eexists. reflexivity.
Qed.

(** ** Further properties of [particles_heavy.py] *)

Lemma py_index_out_of_range {A : Type} (l : list A) (i : Z) :
  i < - Z.of_nat (length l) \/ Z.of_nat (length l) <= i ->
  py_index l i = Raise IndexError.
Proof.
  intros Hi. unfold py_index.
  destruct (Z.ltb_spec i 0) as [Hneg | Hpos].
  - destruct (Z.leb_spec 0 (i + Z.of_nat (length l))); [lia | reflexivity].
  - destruct (Z.leb_spec 0 i); [| lia].
    destruct (Z.ltb_spec i (Z.of_nat (length l))); [lia | reflexivity].
Qed.

Lemma update_in_range (step : Z) (ps : list ParticlesHeavy.Particle) (i : Z)
  (p : ParticlesHeavy.Particle) :
  0 <= i < Z.of_nat (length ps) ->
  ps !! Z.to_nat i = Some p ->
  (Z.to_nat (step mod 4) < length (ParticlesHeavy.bins p))%nat ->
  ParticlesHeavy.update step ps i = Ok (<[Z.to_nat i := advance step i p]> ps).
Proof.
  intros Hi Hp Hslot. unfold ParticlesHeavy.update.
  rewrite py_index_in_range by assumption. rewrite bind_Ok. rewrite Hp.
  cbn [ParticlesHeavy.set_pos_x ParticlesHeavy.set_pos_y ParticlesHeavy.bins
       ParticlesHeavy.pos ParticlesHeavy.vel ParticlesHeavy.x ParticlesHeavy.y].
  assert (Hmod : 0 <= step mod 4 < 4) by (apply Z.mod_pos_bound; lia).
  destruct (getitem_in_range (ParticlesHeavy.bins p) (step mod 4))
    as (b & -> & Hb); [lia |].
  rewrite bind_Ok. rewrite setitem_in_range by lia. rewrite bind_Ok.
  unfold advance. rewrite Hb. reflexivity.
Qed.

(** X13: for an index in range, [update] changes the list at that index only:
    the particle there moves by its velocity and its bin [step % 4] grows by
    i + step, while its id, its velocity, its other bins and all other
    particles stay as they are. *)
Theorem update_moves_one_particle :
  forall (step : Z) (ps : list ParticlesHeavy.Particle) (i : Z)
         (p : ParticlesHeavy.Particle) (b : Z),
    0 <= i < Z.of_nat (length ps) ->
    ps !! Z.to_nat i = Some p ->
    ParticlesHeavy.bins p !! Z.to_nat (step mod 4) = Some b ->
    exists (ps' : list ParticlesHeavy.Particle) (p' : ParticlesHeavy.Particle),
      ParticlesHeavy.update step ps i = Ok ps'
      /\ length ps' = length ps
      /\ ps' !! Z.to_nat i = Some p'
      /\ (forall j : nat, j <> Z.to_nat i -> ps' !! j = ps !! j)
      /\ ParticlesHeavy.id p' = ParticlesHeavy.id p
      /\ ParticlesHeavy.vel p' = ParticlesHeavy.vel p
      /\ ParticlesHeavy.x (ParticlesHeavy.pos p')
         = ParticlesHeavy.x (ParticlesHeavy.pos p)
           + ParticlesHeavy.x (ParticlesHeavy.vel p)
      /\ ParticlesHeavy.y (ParticlesHeavy.pos p')
         = ParticlesHeavy.y (ParticlesHeavy.pos p)
           + ParticlesHeavy.y (ParticlesHeavy.vel p)
      /\ ParticlesHeavy.bins p'
         = <[Z.to_nat (step mod 4) := b + i + step]> (ParticlesHeavy.bins p).
Proof.
  intros step ps i p b Hi Hp Hb.
  exists (<[Z.to_nat i := advance step i p]> ps), (advance step i p).
  split.
  - apply update_in_range; [assumption | assumption |].
    apply lookup_lt_Some with b. exact Hb.
  - split; [apply length_insert |].
    split; [apply list_lookup_insert_eq; lia |].
    split; [intros j Hj; apply list_lookup_insert_ne; congruence |].
    unfold advance. cbn. rewrite Hb. repeat split.
Qed.

Lemma update_moves_one_particle_witness :
  0 <= 1 < Z.of_nat (length [ParticlesHeavy.Particle_init 0;
                             ParticlesHeavy.Particle_init 1]) /\
  [ParticlesHeavy.Particle_init 0; ParticlesHeavy.Particle_init 1]
    !! Z.to_nat 1 = Some (ParticlesHeavy.Particle_init 1) /\
  ParticlesHeavy.bins (ParticlesHeavy.Particle_init 1) !! Z.to_nat (5 mod 4)
    = Some 2 /\
  exists (ps' : list ParticlesHeavy.Particle) (p' : ParticlesHeavy.Particle),
    ParticlesHeavy.update 5
      [ParticlesHeavy.Particle_init 0; ParticlesHeavy.Particle_init 1] 1
    = Ok ps'
    /\ length ps' = length [ParticlesHeavy.Particle_init 0;
                            ParticlesHeavy.Particle_init 1]
    /\ ps' !! Z.to_nat 1 = Some p'
    /\ (forall j : nat, j <> Z.to_nat 1 ->
          ps' !! j
          = [ParticlesHeavy.Particle_init 0; ParticlesHeavy.Particle_init 1]
              !! j)
    /\ ParticlesHeavy.id p' = ParticlesHeavy.id (ParticlesHeavy.Particle_init 1)
    /\ ParticlesHeavy.vel p'
       = ParticlesHeavy.vel (ParticlesHeavy.Particle_init 1)
    /\ ParticlesHeavy.x (ParticlesHeavy.pos p')
       = ParticlesHeavy.x (ParticlesHeavy.pos (ParticlesHeavy.Particle_init 1))
         + ParticlesHeavy.x (ParticlesHeavy.vel (ParticlesHeavy.Particle_init 1))
    /\ ParticlesHeavy.y (ParticlesHeavy.pos p')
       = ParticlesHeavy.y (ParticlesHeavy.pos (ParticlesHeavy.Particle_init 1))
         + ParticlesHeavy.y (ParticlesHeavy.vel (ParticlesHeavy.Particle_init 1))
    /\ ParticlesHeavy.bins p'
       = <[Z.to_nat (5 mod 4) := 2 + 1 + 5]>
           (ParticlesHeavy.bins (ParticlesHeavy.Particle_init 1)).
Proof.
  split; [cbn; lia | split; [reflexivity | split; [reflexivity |]]].
  apply (update_moves_one_particle 5
           [ParticlesHeavy.Particle_init 0; ParticlesHeavy.Particle_init 1]
           1 (ParticlesHeavy.Particle_init 1) 2);
    [cbn; lia | reflexivity | reflexivity].
Defined.

(** X14: [update] raises IndexError for an index at or beyond the length of
    the list or below minus the length, and also when the particle has no
    bin [step % 4]. *)
Theorem update_raises_index_error :
  forall (step : Z) (ps : list ParticlesHeavy.Particle) (i : Z),
    (i < - Z.of_nat (length ps) \/ Z.of_nat (length ps) <= i
     \/ (0 <= i /\ exists p, ps !! Z.to_nat i = Some p
                   /\ (length (ParticlesHeavy.bins p) <= Z.to_nat (step mod 4))%nat)) ->
    ParticlesHeavy.update step ps i = Raise IndexError.
Proof.
  intros step ps i [Hlow | [Hhigh | (Hi & p & Hp & Hshort)]].
  - unfold ParticlesHeavy.update.
    rewrite py_index_out_of_range by (left; exact Hlow). reflexivity.
  - unfold ParticlesHeavy.update.
    rewrite py_index_out_of_range by (right; exact Hhigh). reflexivity.
  - unfold ParticlesHeavy.update.
    assert (Z.to_nat i < length ps)%nat by (apply lookup_lt_Some with p; exact Hp).
    rewrite py_index_in_range by lia. rewrite bind_Ok. rewrite Hp.
    cbn [ParticlesHeavy.set_pos_x ParticlesHeavy.set_pos_y ParticlesHeavy.bins
         ParticlesHeavy.pos ParticlesHeavy.vel ParticlesHeavy.x ParticlesHeavy.y].
    assert (Hmod : 0 <= step mod 4 < 4) by (apply Z.mod_pos_bound; lia).
    unfold getitem.
    rewrite py_index_out_of_range by (right; lia). reflexivity.
Qed.

Lemma update_raises_index_error_witness :
  (2 < - Z.of_nat (length [ParticlesHeavy.Particle_init 0])
   \/ Z.of_nat (length [ParticlesHeavy.Particle_init 0]) <= 2
   \/ (0 <= 2 /\ exists p, [ParticlesHeavy.Particle_init 0] !! Z.to_nat 2 = Some p
                  /\ (length (ParticlesHeavy.bins p) <= Z.to_nat (0 mod 4))%nat)) /\
  ParticlesHeavy.update 0 [ParticlesHeavy.Particle_init 0] 2 = Raise IndexError.
Proof.
  assert (H : 2 < - Z.of_nat (length [ParticlesHeavy.Particle_init 0])
              \/ Z.of_nat (length [ParticlesHeavy.Particle_init 0]) <= 2
              \/ (0 <= 2 /\ exists p,
                    [ParticlesHeavy.Particle_init 0] !! Z.to_nat 2 = Some p
                    /\ (length (ParticlesHeavy.bins p) <= Z.to_nat (0 mod 4))%nat))
    by (right; left; cbn; lia).
  split; [exact H |].
  exact (update_raises_index_error 0 [ParticlesHeavy.Particle_init 0] 2 H).
Defined.

Lemma bins_advance_length (step i : Z) (p : ParticlesHeavy.Particle) :
  length (ParticlesHeavy.bins (advance step i p))
  = length (ParticlesHeavy.bins p).
Proof.
  unfold advance. cbn [ParticlesHeavy.bins].
  destruct (ParticlesHeavy.bins p !! Z.to_nat (step mod 4));
    [apply length_insert | reflexivity].
Qed.

Lemma advance_upto_length (step : Z) (k : nat)
  (ps : list ParticlesHeavy.Particle) :
  length (advance_upto step k ps) = length ps.
Proof. apply length_imap. Qed.

Lemma advance_upto_lookup (step : Z) (k j : nat)
  (ps : list ParticlesHeavy.Particle) :
  advance_upto step k ps !! j
  = (fun p => if (j <? k)%nat then advance step (Z.of_nat j) p else p)
      <$> ps !! j.
Proof. unfold advance_upto. apply list_lookup_imap. Qed.

Lemma advance_upto_ok (step : Z) (k : nat)
  (ps : list ParticlesHeavy.Particle) :
  particles_ok ps -> particles_ok (advance_upto step k ps).
Proof.
  intros [Hlen Hbins]. split.
  - rewrite advance_upto_length. exact Hlen.
  - apply Forall_lookup. intros j p Hp.
    rewrite advance_upto_lookup in Hp.
    destruct (ps !! j) as [p0 |] eqn:Hp0; [| discriminate Hp].
    pose proof (proj1 (Forall_lookup _ _) Hbins _ _ Hp0) as H4.
    cbn [fmap option_fmap option_map] in Hp. injection Hp as <-.
    destruct (j <? k)%nat; [rewrite bins_advance_length |]; exact H4.
Qed.

Lemma advance_upto_step (step : Z) (k : nat)
  (ps : list ParticlesHeavy.Particle) (p : ParticlesHeavy.Particle) :
  ps !! k = Some p ->
  <[k := advance step (Z.of_nat k) p]> (advance_upto step k ps)
  = advance_upto step (S k) ps.
Proof.
  intros Hp. apply list_eq. intros j.
  destruct (decide (k = j)) as [<- | Hne].
  - rewrite list_lookup_insert_eq
      by (rewrite advance_upto_length; apply lookup_lt_Some with p; exact Hp).
    rewrite advance_upto_lookup, Hp. cbn [fmap option_fmap option_map].
    destruct (Nat.ltb_spec k (S k)); [reflexivity | lia].
  - rewrite list_lookup_insert_ne by exact Hne.
    rewrite !advance_upto_lookup.
    destruct (ps !! j) as [q |]; [cbn [fmap option_fmap option_map] | reflexivity].
    destruct (Nat.ltb_spec j k), (Nat.ltb_spec j (S k)); (reflexivity || lia).
Qed.

Lemma advance_upto_all (step : Z) (k : nat)
  (ps : list ParticlesHeavy.Particle) :
  (length ps <= k)%nat ->
  advance_upto step k ps = imap (fun j p => advance step (Z.of_nat j) p) ps.
Proof.
  intros Hk. unfold advance_upto. apply imap_ext. intros j p Hp.
  apply lookup_lt_Some in Hp.
  destruct (Nat.ltb_spec j k); [reflexivity | lia].
Qed.

Lemma advance_upto_none (step : Z) (ps : list ParticlesHeavy.Particle) :
  advance_upto step 0 ps = ps.
Proof.
  apply list_eq. intros j. rewrite advance_upto_lookup.
  destruct (ps !! j); reflexivity.
Qed.

Lemma particles_N_nonneg : 0 <= ParticlesHeavy.N.
Proof. discriminate. Qed.

Lemma inner_loop_result (fuel : nat) (step : Z)
  (ps : list ParticlesHeavy.Particle) :
  (fuel_needed K_particles <= fuel)%nat -> particles_ok ps ->
  while_loop fuel (fun '(ps, i) => i <? ParticlesHeavy.N)
    (fun '(ps, i) => ps ← ParticlesHeavy.update step ps i; Ok (ps, i + 1))
    (ps, 0)
  = Ok (imap (fun j p => advance step (Z.of_nat j) p) ps, ParticlesHeavy.N).
Proof.
  intros Hfuel Hok. unfold fuel_needed in Hfuel.
  pose proof particles_N_nonneg as HN.
  destruct (while_loop_rule
              (fun '(ps1, i) =>
                 0 <= i <= ParticlesHeavy.N
                 /\ ps1 = advance_upto step (Z.to_nat i) ps)
              (fun '(ps1, i) => Z.to_nat (ParticlesHeavy.N - i))
              (fun '(ps1, i) => i <? ParticlesHeavy.N)
              (fun '(ps1, i) =>
                 ps1 ← ParticlesHeavy.update step ps1 i; Ok (ps1, i + 1)))
    with (fuel := fuel) (s := (ps, 0))
    as ([ps' i'] & Hrun & (Hi & Hps) & Hcond).
  - intros [ps1 i] (Hi & ->) Hcond. apply Z.ltb_lt in Hcond.
    destruct Hok as [Hlen Hbins].
    destruct (lookup_lt_is_Some_2 ps (Z.to_nat i)) as [p Hp]; [lia |].
    pose proof (proj1 (Forall_lookup _ _) Hbins _ _ Hp) as H4.
    cbv beta in H4.
    assert (Hmod : 0 <= step mod 4 < 4) by (apply Z.mod_pos_bound; lia).
    rewrite (update_in_range step _ i p).
    + rewrite bind_Ok. eexists. split; [reflexivity |].
      split; [split; [lia |] | lia].
      replace (Z.to_nat (i + 1)) with (S (Z.to_nat i)) by lia.
      rewrite <- (advance_upto_step step (Z.to_nat i) ps p Hp).
      rewrite Z2Nat.id by lia. reflexivity.
    + rewrite advance_upto_length. lia.
    + rewrite advance_upto_lookup, Hp. cbn [fmap option_fmap option_map].
      destruct (Nat.ltb_spec (Z.to_nat i) (Z.to_nat i)); [lia | reflexivity].
    + lia.
  - split; [lia |]. symmetry. apply advance_upto_none.
  - lia.
  - apply Z.ltb_ge in Hcond. assert (i' = ParticlesHeavy.N) as -> by lia.
    rewrite Hrun. rewrite Hps. f_equal. f_equal.
    apply advance_upto_all. destruct Hok as [Hlen _]. lia.
Qed.

Lemma particle_after_bins_length (k : nat) (pid : Z) :
  length (ParticlesHeavy.bins (particle_after k pid)) = 4%nat.
Proof.
  induction k as [| k IH]; [reflexivity |].
  cbn [particle_after]. rewrite bins_advance_length. exact IH.
Qed.

Lemma particles_after_ok (k : nat) :
  particles_ok (particle_after k <$> py_range 0 ParticlesHeavy.N).
Proof.
  split.
  - rewrite length_fmap. unfold py_range. rewrite length_seqZ. lia.
  - apply Forall_fmap, Forall_forall. intros pid _.
    apply particle_after_bins_length.
Qed.

Lemma advance_all_after (k : nat) :
  imap (fun j p => advance (Z.of_nat k) (Z.of_nat j) p)
    (particle_after k <$> py_range 0 ParticlesHeavy.N)
  = particle_after (S k) <$> py_range 0 ParticlesHeavy.N.
Proof.
  apply list_eq. intros j.
  rewrite list_lookup_imap, !list_lookup_fmap. unfold py_range.
  destruct (Z_lt_le_dec (Z.of_nat j) (ParticlesHeavy.N - 0)) as [Hlt | Hge].
  - rewrite lookup_seqZ_lt by exact Hlt. cbn [fmap option_fmap option_map particle_after].
    rewrite Z.add_0_l. reflexivity.
  - rewrite lookup_seqZ_ge by exact Hge. reflexivity.
Qed.

Lemma particles_STEPS_nonneg : 0 <= ParticlesHeavy.STEPS.
Proof. discriminate. Qed.

Lemma simulate_result (fuel : nat) :
  (fuel_needed K_particles <= fuel)%nat ->
  ParticlesHeavy.simulate fuel
    (ParticlesHeavy.Particle_init <$> py_range 0 ParticlesHeavy.N)
  = Ok (particle_after (Z.to_nat ParticlesHeavy.STEPS)
          <$> py_range 0 ParticlesHeavy.N).
Proof.
  intros Hfuel. pose proof particles_STEPS_nonneg as HS.
  unfold ParticlesHeavy.simulate.
  destruct (while_loop_rule
              (fun '(ps, step) =>
                 0 <= step <= ParticlesHeavy.STEPS
                 /\ ps = particle_after (Z.to_nat step)
                           <$> py_range 0 ParticlesHeavy.N)
              (fun '(ps, step) => Z.to_nat (ParticlesHeavy.STEPS - step))
              (fun '(ps, step) => step <? ParticlesHeavy.STEPS)
              (fun '(ps, step) =>
                 '(ps, i) ←
                   while_loop fuel (fun '(ps, i) => i <? ParticlesHeavy.N)
                     (fun '(ps, i) =>
                        ps ← ParticlesHeavy.update step ps i; Ok (ps, i + 1))
                     (ps, 0);
                 Ok (ps, step + 1)))
    with (fuel := fuel)
         (s := (ParticlesHeavy.Particle_init <$> py_range 0 ParticlesHeavy.N, 0))
    as ([ps' step'] & Hrun & (Hstep & Hps) & Hcond).
  - intros [ps step] (Hstep & ->) Hcond. apply Z.ltb_lt in Hcond.
    rewrite (inner_loop_result fuel step _ Hfuel (particles_after_ok _)).
    rewrite bind_Ok. eexists. split; [reflexivity |].
    split; [split; [lia |] | lia].
    replace (Z.to_nat (step + 1)) with (S (Z.to_nat step)) by lia.
    rewrite <- advance_all_after. rewrite Z2Nat.id by lia. reflexivity.
  - split; [lia | reflexivity].
  - unfold fuel_needed in Hfuel.
    assert (ParticlesHeavy.STEPS <= ParticlesHeavy.N) by discriminate. lia.
  - apply Z.ltb_ge in Hcond.
    assert (step' = ParticlesHeavy.STEPS) as -> by lia.
    rewrite Hrun, bind_Ok. rewrite Hps. reflexivity.
Qed.

Lemma particle_eta (p : ParticlesHeavy.Particle) :
  p = {| ParticlesHeavy.id := ParticlesHeavy.id p;
         ParticlesHeavy.pos :=
           {| ParticlesHeavy.x := ParticlesHeavy.x (ParticlesHeavy.pos p);
              ParticlesHeavy.y := ParticlesHeavy.y (ParticlesHeavy.pos p) |};
         ParticlesHeavy.vel := ParticlesHeavy.vel p;
         ParticlesHeavy.bins := ParticlesHeavy.bins p |}.
Proof. destruct p as [i [px py] v b]. reflexivity. Qed.

Lemma particle_after_id (k : nat) (pid : Z) :
  ParticlesHeavy.id (particle_after k pid) = pid.
Proof. induction k as [| k IH]; [reflexivity | exact IH]. Qed.

Lemma particle_after_vel (k : nat) (pid : Z) :
  ParticlesHeavy.vel (particle_after k pid)
  = {| ParticlesHeavy.x := 1 + pid; ParticlesHeavy.y := 2 - pid |}.
Proof. induction k as [| k IH]; [reflexivity | exact IH]. Qed.

Lemma particle_after_pos (k : nat) (pid : Z) :
  ParticlesHeavy.x (ParticlesHeavy.pos (particle_after k pid))
  = pid + Z.of_nat k * (1 + pid)
  /\ ParticlesHeavy.y (ParticlesHeavy.pos (particle_after k pid))
     = pid * 2 + Z.of_nat k * (2 - pid).
Proof.
  induction k as [| k [IHx IHy]].
  - split; cbn; lia.
  - cbn [particle_after]. unfold advance.
    cbn [ParticlesHeavy.pos ParticlesHeavy.x ParticlesHeavy.y].
    rewrite IHx, IHy, particle_after_vel.
    cbn [ParticlesHeavy.x ParticlesHeavy.y]. split; lia.
Qed.

Lemma bins_advance_0 (step i : Z) (p : ParticlesHeavy.Particle)
  (b0 b1 b2 b3 : Z) :
  step mod 4 = 0 -> ParticlesHeavy.bins p = [b0; b1; b2; b3] ->
  ParticlesHeavy.bins (advance step i p) = [b0 + i + step; b1; b2; b3].
Proof.
  intros Hs Hb. unfold advance. cbn [ParticlesHeavy.bins].
  rewrite Hs, Hb. reflexivity.
Qed.

Lemma bins_advance_1 (step i : Z) (p : ParticlesHeavy.Particle)
  (b0 b1 b2 b3 : Z) :
  step mod 4 = 1 -> ParticlesHeavy.bins p = [b0; b1; b2; b3] ->
  ParticlesHeavy.bins (advance step i p) = [b0; b1 + i + step; b2; b3].
Proof.
  intros Hs Hb. unfold advance. cbn [ParticlesHeavy.bins].
  rewrite Hs, Hb. reflexivity.
Qed.

Lemma bins_advance_2 (step i : Z) (p : ParticlesHeavy.Particle)
  (b0 b1 b2 b3 : Z) :
  step mod 4 = 2 -> ParticlesHeavy.bins p = [b0; b1; b2; b3] ->
  ParticlesHeavy.bins (advance step i p) = [b0; b1; b2 + i + step; b3].
Proof.
  intros Hs Hb. unfold advance. cbn [ParticlesHeavy.bins].
  rewrite Hs, Hb. reflexivity.
Qed.

Lemma bins_advance_3 (step i : Z) (p : ParticlesHeavy.Particle)
  (b0 b1 b2 b3 : Z) :
  step mod 4 = 3 -> ParticlesHeavy.bins p = [b0; b1; b2; b3] ->
  ParticlesHeavy.bins (advance step i p) = [b0; b1; b2; b3 + i + step].
Proof.
  intros Hs Hb. unfold advance. cbn [ParticlesHeavy.bins].
  rewrite Hs, Hb. reflexivity.
Qed.

Lemma mod_4_offset (q r : Z) : 0 <= r < 4 -> (4 * q + r) mod 4 = r.
Proof.
  intros Hr. replace (4 * q + r) with (r + q * 4) by ring.
  rewrite Z_mod_plus_full. apply Z.mod_small. exact Hr.
Qed.

(** The bins after [4 * q] steps: every slot has grown [q] times. *)
Lemma particle_after_bins (q : nat) (pid : Z) :
  ParticlesHeavy.bins (particle_after (4 * q) pid)
  = [pid + 0 + (Z.of_nat q * pid + 2 * Z.of_nat q * (Z.of_nat q - 1)
                + Z.of_nat q * 0);
     pid + 1 + (Z.of_nat q * pid + 2 * Z.of_nat q * (Z.of_nat q - 1)
                + Z.of_nat q * 1);
     pid + 2 + (Z.of_nat q * pid + 2 * Z.of_nat q * (Z.of_nat q - 1)
                + Z.of_nat q * 2);
     pid + 3 + (Z.of_nat q * pid + 2 * Z.of_nat q * (Z.of_nat q - 1)
                + Z.of_nat q * 3)].
Proof.
  induction q as [| q IH].
  - change (particle_after (4 * 0) pid) with (ParticlesHeavy.Particle_init pid).
    cbn [ParticlesHeavy.bins ParticlesHeavy.Particle_init].
    change (Z.of_nat 0) with 0.
    f_equal; [ring |]. f_equal; [ring |]. f_equal; [ring |].
    f_equal. ring.
  - replace (4 * S q)%nat with (S (S (S (S (4 * q))))) by lia.
    cbn [particle_after].
    pose proof (bins_advance_0 (Z.of_nat (4 * q)) pid _ _ _ _ _
                  ltac:(replace (Z.of_nat (4 * q)) with (4 * Z.of_nat q + 0)
                          by lia; apply mod_4_offset; lia) IH) as H0.
    pose proof (bins_advance_1 (Z.of_nat (S (4 * q))) pid _ _ _ _ _
                  ltac:(replace (Z.of_nat (S (4 * q))) with (4 * Z.of_nat q + 1)
                          by lia; apply mod_4_offset; lia) H0) as H1.
    pose proof (bins_advance_2 (Z.of_nat (S (S (4 * q)))) pid _ _ _ _ _
                  ltac:(replace (Z.of_nat (S (S (4 * q))))
                          with (4 * Z.of_nat q + 2)
                          by lia; apply mod_4_offset; lia) H1) as H2.
    pose proof (bins_advance_3 (Z.of_nat (S (S (S (4 * q))))) pid _ _ _ _ _
                  ltac:(replace (Z.of_nat (S (S (S (4 * q)))))
                          with (4 * Z.of_nat q + 3)
                          by lia; apply mod_4_offset; lia) H2) as H3.
    rewrite H3.
    replace (Z.of_nat (4 * q)) with (4 * Z.of_nat q) by lia.
    replace (Z.of_nat (S (4 * q))) with (4 * Z.of_nat q + 1) by lia.
    replace (Z.of_nat (S (S (4 * q)))) with (4 * Z.of_nat q + 2) by lia.
    replace (Z.of_nat (S (S (S (4 * q))))) with (4 * Z.of_nat q + 3) by lia.
    replace (Z.of_nat (S q)) with (Z.of_nat q + 1) by lia.
    f_equal; [ring |]. f_equal; [ring |]. f_equal; [ring |].
    f_equal. ring.
Qed.

Lemma particle_after_all_steps (pid : Z) :
  particle_after (Z.to_nat ParticlesHeavy.STEPS) pid = final_particle pid.
Proof.
  change (Z.to_nat ParticlesHeavy.STEPS) with (4 * 200)%nat.
  rewrite (particle_eta (particle_after (4 * 200) pid)).
  rewrite particle_after_id, particle_after_vel, particle_after_bins.
  destruct (particle_after_pos (4 * 200) pid) as [-> ->].
  change (Z.of_nat (4 * 200)) with 800. change (Z.of_nat 200) with 200.
  unfold final_particle.
  f_equal; [f_equal; lia |].
  f_equal; [lia |]. f_equal; [lia |]. f_equal; [lia |]. f_equal. lia.
Qed.

Lemma final_particles_eq :
  particle_after (Z.to_nat ParticlesHeavy.STEPS)
    <$> py_range 0 ParticlesHeavy.N
  = final_particle <$> py_range 0 ParticlesHeavy.N.
Proof.
  apply list_fmap_ext. intros j pid _. apply particle_after_all_steps.
Qed.

Lemma total_weight_app (l1 l2 : list ParticlesHeavy.Particle) :
  total_weight (l1 ++ l2) = total_weight l1 + total_weight l2.
Proof.
  induction l1 as [| p l1 IH]; [reflexivity |].
  cbn [app total_weight foldr] in *. fold (total_weight (l1 ++ l2)).
  fold (total_weight l1). rewrite IH. ring.
Qed.

Lemma total_weight_snoc (l : list ParticlesHeavy.Particle)
  (p : ParticlesHeavy.Particle) :
  total_weight (l ++ [p]) = total_weight l + particle_weight p.
Proof. rewrite total_weight_app. unfold total_weight at 2. cbn [foldr]. lia. Qed.

Lemma checksum_loop_result (fuel : nat) (ps : list ParticlesHeavy.Particle) :
  (fuel_needed K_particles <= fuel)%nat -> particles_ok ps ->
  ParticlesHeavy.checksum_loop fuel ps
  = Ok (total_weight ps mod ParticlesHeavy.MODV).
Proof.
  intros Hfuel [Hlen Hbins]. unfold fuel_needed in Hfuel.
  pose proof particles_N_nonneg as HN.
  assert (HM : 0 < ParticlesHeavy.MODV) by reflexivity.
  unfold ParticlesHeavy.checksum_loop.
  destruct (while_loop_rule
              (fun '(checksum, i) =>
                 0 <= i <= ParticlesHeavy.N
                 /\ checksum
                    = total_weight (take (Z.to_nat i) ps)
                      mod ParticlesHeavy.MODV)
              (fun '(checksum, i) => Z.to_nat (ParticlesHeavy.N - i))
              (fun '(checksum, i) => i <? ParticlesHeavy.N)
              (fun '(checksum, i) =>
                 p ← getitem ps i;
                 b0 ← getitem (ParticlesHeavy.bins p) 0;
                 b1 ← getitem (ParticlesHeavy.bins p) 1;
                 b2 ← getitem (ParticlesHeavy.bins p) 2;
                 b3 ← getitem (ParticlesHeavy.bins p) 3;
                 Ok ((checksum + ParticlesHeavy.x (ParticlesHeavy.pos p)
                      + ParticlesHeavy.y (ParticlesHeavy.pos p)
                      + b0 + b1 + b2 + b3) mod ParticlesHeavy.MODV,
                     i + 1)))
    with (fuel := fuel) (s := (0, 0))
    as ([c i'] & Hrun & (Hi & Hc) & Hcond).
  - intros [c i] (Hi & ->) Hcond. apply Z.ltb_lt in Hcond.
    destruct (getitem_in_range ps i) as (p & -> & Hp); [lia |].
    rewrite bind_Ok.
    pose proof (proj1 (Forall_lookup _ _) Hbins _ _ Hp) as H4.
    cbv beta in H4.
    destruct (ParticlesHeavy.bins p)
      as [| b0 [| b1 [| b2 [| b3 [| b4 bs]]]]] eqn:Hb;
      try discriminate H4.
    change (getitem [b0; b1; b2; b3] 0) with (Ok b0).
    change (getitem [b0; b1; b2; b3] 1) with (Ok b1).
    change (getitem [b0; b1; b2; b3] 2) with (Ok b2).
    change (getitem [b0; b1; b2; b3] 3) with (Ok b3).
    rewrite !bind_Ok. eexists. split; [reflexivity |].
    split; [split; [lia |] | lia].
    replace (Z.to_nat (i + 1)) with (S (Z.to_nat i)) by lia.
    rewrite (take_S_r ps (Z.to_nat i) p Hp). rewrite total_weight_snoc.
    unfold particle_weight. rewrite Hb. cbn [foldr].
    rewrite <- !Z.add_assoc. rewrite Z.add_mod_idemp_l by lia.
    f_equal. ring.
  - split; [lia | reflexivity].
  - lia.
  - apply Z.ltb_ge in Hcond. assert (i' = ParticlesHeavy.N) as -> by lia.
    rewrite Hrun, bind_Ok. rewrite Hc.
    rewrite take_ge by lia. reflexivity.
Qed.

Lemma final_particle_weight (pid : Z) :
  particle_weight (final_particle pid) = 807 * pid + 322006.
Proof. unfold particle_weight, final_particle. cbn. lia. Qed.

Lemma final_particles_weight (n : nat) :
  2 * total_weight (final_particle <$> seqZ 0 (Z.of_nat n))
  = 807 * Z.of_nat n * (Z.of_nat n - 1) + 2 * 322006 * Z.of_nat n.
Proof.
  induction n as [| n IH]; [reflexivity |].
  rewrite seqZ_S, fmap_app. cbn [fmap list_fmap].
  rewrite total_weight_snoc, final_particle_weight.
  replace (Z.of_nat (S n)) with (Z.of_nat n + 1) by lia.
  nia.
Qed.

Lemma final_checksum :
  total_weight (final_particle <$> py_range 0 ParticlesHeavy.N)
    mod ParticlesHeavy.MODV
  = 128181744.
Proof.
  unfold py_range.
  pose proof (final_particles_weight (Z.to_nat ParticlesHeavy.N)) as Hw.
  replace (Z.of_nat (Z.to_nat ParticlesHeavy.N)) with (ParticlesHeavy.N - 0)
    in Hw by reflexivity.
  assert (Hn : ParticlesHeavy.N - 0 = 80000) by reflexivity.
  rewrite Hn in Hw at 2 3 4.
  assert (Ht : total_weight (final_particle <$> seqZ 0 (ParticlesHeavy.N - 0))
               = 2608128200000) by lia.
  rewrite Ht. reflexivity.
Qed.

Lemma particles_main_value (fuel : nat) :
  (fuel_needed K_particles <= fuel)%nat ->
  ParticlesHeavy.main fuel = print "128181744".
Proof.
  intros Hfuel. unfold ParticlesHeavy.main.
  rewrite (simulate_result fuel Hfuel). rewrite final_particles_eq.
  unfold lift, mbind, io_mbind. cbn [io_bind].
  rewrite checksum_loop_result;
    [| exact Hfuel
     | rewrite <- final_particles_eq; apply particles_after_ok].
  rewrite final_checksum. reflexivity.
Qed.

(** X15: the simulation of [particles_heavy.py] leaves particle i, for every
    i < N, with its id and velocity unchanged, at position
    (801 i + 800, 1600 - 798 i), and with the bins 201 i + 79600,
    201 i + 79801, 201 i + 80002 and 201 i + 80203: each particle has moved
    800 times by its velocity and each bin has grown 200 times. *)
Theorem simulate_final_state :
  forall fuel : nat, (fuel_needed K_particles <= fuel)%nat ->
    ParticlesHeavy.simulate fuel
      (ParticlesHeavy.Particle_init <$> py_range 0 ParticlesHeavy.N)
    = Ok (final_particle <$> py_range 0 ParticlesHeavy.N).
Proof.
  intros fuel Hfuel. rewrite (simulate_result fuel Hfuel).
  rewrite final_particles_eq. reflexivity.
Qed.

Lemma simulate_final_state_witness :
  (fuel_needed K_particles <= fuel_needed K_particles)%nat /\
  ParticlesHeavy.simulate (fuel_needed K_particles)
    (ParticlesHeavy.Particle_init <$> py_range 0 ParticlesHeavy.N)
  = Ok (final_particle <$> py_range 0 ParticlesHeavy.N).
Proof.
  split; [apply le_n |].
  exact (simulate_final_state (fuel_needed K_particles) (le_n _)).
Defined.

(** X16: on a list of N particles with four bins each, the checksum loop
    returns the sum of the positions and bins of all particles, reduced
    modulo MODV: reducing after every particle gives the same as reducing
    the whole sum once. *)
Theorem checksum_loop_adds_all_fields :
  forall (fuel : nat) (ps : list ParticlesHeavy.Particle),
    (fuel_needed K_particles <= fuel)%nat ->
    length ps = Z.to_nat ParticlesHeavy.N ->
    Forall (fun p => length (ParticlesHeavy.bins p) = 4%nat) ps ->
    ParticlesHeavy.checksum_loop fuel ps
    = Ok (foldr (fun p acc =>
                   ParticlesHeavy.x (ParticlesHeavy.pos p)
                   + ParticlesHeavy.y (ParticlesHeavy.pos p)
                   + foldr Z.add 0 (ParticlesHeavy.bins p) + acc) 0 ps
          mod ParticlesHeavy.MODV).
Proof.
  intros fuel ps Hfuel Hlen Hbins.
  apply (checksum_loop_result fuel ps Hfuel). split; assumption.
Qed.

Lemma checksum_loop_adds_all_fields_witness :
  (fuel_needed K_particles <= fuel_needed K_particles)%nat /\
  length (ParticlesHeavy.Particle_init <$> py_range 0 ParticlesHeavy.N)
  = Z.to_nat ParticlesHeavy.N /\
  Forall (fun p => length (ParticlesHeavy.bins p) = 4%nat)
    (ParticlesHeavy.Particle_init <$> py_range 0 ParticlesHeavy.N) /\
  ParticlesHeavy.checksum_loop (fuel_needed K_particles)
    (ParticlesHeavy.Particle_init <$> py_range 0 ParticlesHeavy.N)
  = Ok (foldr (fun p acc =>
                 ParticlesHeavy.x (ParticlesHeavy.pos p)
                 + ParticlesHeavy.y (ParticlesHeavy.pos p)
                 + foldr Z.add 0 (ParticlesHeavy.bins p) + acc) 0
          (ParticlesHeavy.Particle_init <$> py_range 0 ParticlesHeavy.N)
        mod ParticlesHeavy.MODV).
Proof.
  destruct initial_particles_ok as [Hlen Hbins].
  split; [apply le_n | split; [exact Hlen | split; [exact Hbins |]]].
  exact (checksum_loop_adds_all_fields (fuel_needed K_particles) _
           (le_n _) Hlen Hbins).
Defined.

(** X17: main of [particles_heavy.py] prints 128181744, which is the sum of
    807 i + 322006 over the particles i < 80000, modulo 1000000007, and
    nothing else. *)
Theorem particles_main_prints_128181744 :
  forall (fuel : nat) (t : list event) (r : result unit),
    (fuel_needed K_particles <= fuel)%nat ->
    runs (ParticlesHeavy.main fuel) t r ->
    t = [EvPrint "128181744"] /\ r = Ok tt
    /\ stdout t = "128181744" +:+ String "010" ""
    /\ (807 * (80000 * 79999 / 2) + 322006 * 80000) mod 1000000007
       = 128181744.
Proof.
  intros fuel t r Hfuel Hrun.
  rewrite (particles_main_value fuel Hfuel) in Hrun.
  apply runs_print_inv in Hrun as [-> ->].
  repeat split.
Qed.

Lemma particles_main_run :
  runs (ParticlesHeavy.main (fuel_needed K_particles))
    [EvPrint "128181744"] (Ok tt).
Proof.
  rewrite (particles_main_value _ (le_n _)). apply runs_print_one.
Qed.

Lemma particles_main_prints_128181744_witness :
  (fuel_needed K_particles <= fuel_needed K_particles)%nat /\
  runs (ParticlesHeavy.main (fuel_needed K_particles))
    [EvPrint "128181744"] (Ok tt) /\
  ([EvPrint "128181744"] = [EvPrint "128181744"] /\ Ok tt = Ok tt
   /\ stdout [EvPrint "128181744"] = "128181744" +:+ String "010" ""
   /\ (807 * (80000 * 79999 / 2) + 322006 * 80000) mod 1000000007
      = 128181744).
Proof.
  split; [apply le_n | split; [exact particles_main_run |]].
  exact (particles_main_prints_128181744 (fuel_needed K_particles) _ _
           (le_n _) particles_main_run).
Defined.
